(** * RP2040-FreeRTOS, App-IRQs: a shallow embedding of [main.cpp]

    The application bridges the MCP9808 alert pin to four FreeRTOS tasks
    through two queues and a software timer.  Every function of
    [App-IRQs/main.cpp] that takes part in that coordination is written
    here as a state transformer over the file's globals; calls that leave
    the file (GPIO, display driver, sensor driver, kernel) are recorded in
    a chronological event trace, so that the order of effects can be read
    off the result. *)

From Stdlib Require Import ZArith List Bool String Ascii Lia.
From Stdlib Require Import Floats DecimalString.
Import ListNotations.

Local Open Scope Z_scope.

(** ** Machine integers *)

Definition wrap8 (z : Z) : Z := z mod 2 ^ 8.
Definition wrap32 (z : Z) : Z := z mod 2 ^ 32.

(** ** Kernel and board constants used by [main.cpp] *)

Definition pdPASS : Z := 1.
Definition pdFALSE : Z := 0.
Definition portMAX_DELAY : Z := 2 ^ 32 - 1.

(** [GPIO_LED_ON] and [GPIO_LED_OFF] of [main.h]: the two flash tokens. *)
Definition GPIO_LED_ON : Z := 1.
Definition GPIO_LED_OFF : Z := 0.

Inductive pin : Type :=
| PICO_DEFAULT_LED_PIN
| RED_LED_PIN
| ALERT_LED_PIN
| ALERT_SENSE_PIN.

(** The two queue handles of the file. *)
Inductive queue_id : Type :=
| Q_flip   (* flip_queue *)
| Q_irq.   (* irq_queue *)

Definition queue_id_eqb (a b : queue_id) : bool :=
  match a, b with
  | Q_flip, Q_flip | Q_irq, Q_irq => true
  | _, _ => false
  end.

(** ** Effects that leave the file *)

Inductive event : Type :=
| E_i2c_setup
| E_display_init
| E_display_brightness (level : Z)
| E_display_clear
| E_display_draw
| E_set_number (number : Z) (digit : Z) (has_dot : bool)
| E_set_alpha (chr : ascii) (digit : Z) (has_dot : bool)
| E_sensor_begin
| E_sensor_read
| E_clear_alert (do_now : bool)
| E_gpio_init (p : pin)
| E_gpio_set_dir (p : pin) (out : bool)
| E_gpio_put (p : pin) (value : bool)
| E_set_irq_enabled (p : pin) (enabled : bool)
| E_printf (msg : string)
| E_stdio_init
| E_sleep_ms (ms : Z)
| E_task_create (name : string)
| E_queue_create (q : queue_id) (capacity : Z)
| E_queue_send (q : queue_id) (item : Z) (ticks_to_wait : Z) (from_isr : bool)
| E_queue_receive (q : queue_id) (ticks_to_wait : Z)
| E_task_delay (ticks : Z)
| E_get_tick_count
| E_timer_create (period : Z) (auto_reload : bool)
| E_start_scheduler
| E_store_irq_hit (b : bool)
| E_load_irq_hit
| E_store_read_temp (t : float)
| E_load_read_temp.

(** ** Kernel objects *)

(** A FreeRTOS queue of one-byte items: fixed capacity, FIFO contents. *)
Record Queue : Type := mkQueue {
  q_capacity : Z;
  q_items : list Z
}.

Definition xQueueCreate (capacity : Z) : Queue := mkQueue capacity [].

Definition queue_full (q : Queue) : bool :=
  q_capacity q <=? Z.of_nat (List.length (q_items q)).

(** [xQueueSendToBack] / [xQueueSendToBackFromISR] with a zero block time:
    the item is appended when there is room and dropped otherwise. *)
Definition queue_send_back (q : Queue) (item : Z) : Queue * bool :=
  if queue_full q then (q, false)
  else (mkQueue (q_capacity q) (q_items q ++ [wrap8 item]), true).

(** [xQueueReceive]: the oldest item, when there is one. *)
Definition queue_receive (q : Queue) : option (Z * Queue) :=
  match q_items q with
  | [] => None
  | x :: rest => Some (x, mkQueue (q_capacity q) rest)
  end.

(** A software timer as [xTimerCreate] leaves it: FreeRTOS creates timers
    in the dormant state, and only [xTimerStart], [xTimerReset] and
    [xTimerChangePeriod] make one active. *)
Record Timer : Type := mkTimer {
  t_period : Z;
  t_auto_reload : bool;
  t_active : bool
}.

Definition xTimerCreate (period : Z) (auto_reload : bool) : Timer :=
  mkTimer period auto_reload false.

(** ** The globals of [main.cpp]

    [flip_queue], [irq_queue], [alert_timer], [sensor_good], [read_temp]
    and [irq_hit] are the file's globals ([do_clear] and
    [irq_semaphore] are declared and never used).  [irq_enabled] is the
    one piece of hardware state the file depends on: the enable bit of
    the level-low interrupt on [ALERT_SENSE_PIN], written only through
    [enable_irq].  The queue handles are [NULL] until [main] creates the
    queues; the embedding starts from the state [main] leaves. *)
Record Globals : Type := mkGlobals {
  flip_queue : Queue;
  irq_queue : Queue;
  alert_timer : option Timer;
  sensor_good : bool;
  read_temp : float;
  irq_hit : bool;
  irq_enabled : bool
}.

Definition get_queue (q : queue_id) (g : Globals) : Queue :=
  match q with
  | Q_flip => flip_queue g
  | Q_irq => irq_queue g
  end.

Definition set_queue (q : queue_id) (v : Queue) (g : Globals) : Globals :=
  match q with
  | Q_flip => mkGlobals v (irq_queue g) (alert_timer g) (sensor_good g)
                        (read_temp g) (irq_hit g) (irq_enabled g)
  | Q_irq => mkGlobals (flip_queue g) v (alert_timer g) (sensor_good g)
                       (read_temp g) (irq_hit g) (irq_enabled g)
  end.

Definition set_alert_timer (t : option Timer) (g : Globals) : Globals :=
  mkGlobals (flip_queue g) (irq_queue g) t (sensor_good g)
            (read_temp g) (irq_hit g) (irq_enabled g).

Definition set_read_temp (t : float) (g : Globals) : Globals :=
  mkGlobals (flip_queue g) (irq_queue g) (alert_timer g) (sensor_good g)
            t (irq_hit g) (irq_enabled g).

Definition set_irq_hit (b : bool) (g : Globals) : Globals :=
  mkGlobals (flip_queue g) (irq_queue g) (alert_timer g) (sensor_good g)
            (read_temp g) b (irq_enabled g).

Definition set_irq_enabled (b : bool) (g : Globals) : Globals :=
  mkGlobals (flip_queue g) (irq_queue g) (alert_timer g) (sensor_good g)
            (read_temp g) (irq_hit g) b.

(** ** A state-and-trace monad for the file's functions *)

Definition M (A : Type) : Type := Globals -> A * Globals * list event.

Definition ret {A : Type} (a : A) : M A := fun g => (a, g, []).

Definition bind {A B : Type} (m : M A) (k : A -> M B) : M B :=
  fun g =>
    let '(a, g1, t1) := m g in
    let '(b, g2, t2) := k a g1 in
    (b, g2, t1 ++ t2).

Declare Scope app_scope.
Delimit Scope app_scope with app.
Notation "x <- m ;; k" := (bind m (fun x => k))
  (at level 61, m at next level, right associativity) : app_scope.
Notation "m ;; k" := (bind m (fun _ => k))
  (at level 61, right associativity) : app_scope.
Local Open Scope app_scope.

Definition emit (e : event) : M unit := fun g => (tt, g, [e]).

Definition emit_all (es : list event) : M unit := fun g => (tt, g, es).

Definition modify (f : Globals -> Globals) : M unit := fun g => (tt, f g, []).

Definition gets {A : Type} (f : Globals -> A) : M A := fun g => (f g, g, []).

Definition when (b : bool) (m : M unit) : M unit := if b then m else ret tt.

(** Projections of a run. *)
Definition result_of {A : Type} (r : A * Globals * list event) : A := fst (fst r).
Definition globals_of {A : Type} (r : A * Globals * list event) : Globals := snd (fst r).
Definition trace_of {A : Type} (r : A * Globals * list event) : list event := snd r.

(** Accesses to the [volatile] globals are observable, hence traced. *)
Definition store_irq_hit (b : bool) : M unit :=
  emit (E_store_irq_hit b) ;; modify (set_irq_hit b).

Definition load_irq_hit : M bool :=
  emit E_load_irq_hit ;; gets irq_hit.

Definition store_read_temp (t : float) : M unit :=
  emit (E_store_read_temp t) ;; modify (set_read_temp t).

Definition load_read_temp : M float :=
  emit E_load_read_temp ;; gets read_temp.

(** ** Kernel calls *)

(** [xQueueSendToBack(q, &item, 0)] and its [FromISR] form. *)
Definition xQueueSendToBack (q : queue_id) (item : Z) (from_isr : bool) : M bool :=
  emit (E_queue_send q item 0 from_isr) ;;
  old <- gets (get_queue q) ;;
  let '(new, sent) := queue_send_back old item in
  modify (set_queue q new) ;;
  ret sent.

(** [xQueueReceive(q, &buffer, portMAX_DELAY)]: [None] stands for the
    calling task being blocked on the empty queue. *)
Definition xQueueReceive (q : queue_id) : M (option Z) :=
  emit (E_queue_receive q portMAX_DELAY) ;;
  old <- gets (get_queue q) ;;
  match queue_receive old with
  | None => ret None
  | Some (item, new) => modify (set_queue q new) ;; ret (Some item)
  end.

Definition vTaskDelay (ticks : Z) : M unit := emit (E_task_delay ticks).

(** [xTaskGetTickCount()]: the tick count is supplied by the caller. *)
Definition xTaskGetTickCount (now : Z) : M Z :=
  emit E_get_tick_count ;; ret (wrap32 now).

(** ** Display helpers *)

(** [Utils::bcd] is declared outside [main.cpp].  [display_int] relies on
    it to pack the four decimal digits of a value in [0, 9999] into four
    nibbles, thousands in bits 12-15; that packing is what is written
    here. *)
Definition bcd (number : Z) : Z :=
  Z.lor (Z.shiftl ((number / 1000) mod 10) 12)
  (Z.lor (Z.shiftl ((number / 100) mod 10) 8)
  (Z.lor (Z.shiftl ((number / 10) mod 10) 4)
         (number mod 10))).

(** [stream << std::fixed << std::setprecision(2) << value]: the decimal
    expansion of the double, correctly rounded to two places (ties to
    even), with the C library's spellings of infinities and NaN. *)
Definition round_half_even (n d : Z) : Z :=
  let q := n / d in
  let r := n mod d in
  if 2 * r <? d then q
  else if d <? 2 * r then q + 1
  else if Z.even q then q else q + 1.

Definition hundredths (m : positive) (e : Z) : Z :=
  if 0 <=? e then Z.pos m * 2 ^ e * 100
  else round_half_even (Z.pos m * 100) (2 ^ (- e)).

Definition decimal (z : Z) : string :=
  NilZero.string_of_uint (N.to_uint (Z.to_N z)).

Definition two_digits (z : Z) : string :=
  (decimal (z / 10) ++ decimal (z mod 10))%string.

Definition sign_prefix (negative : bool) : string :=
  if negative then "-"%string else ""%string.

Definition fixed2 (value : float) : string :=
  match Prim2SF value with
  | S754_zero s => (sign_prefix s ++ "0.00")%string
  | S754_infinity s => (sign_prefix s ++ "inf")%string
  | S754_nan => "nan"%string
  | S754_finite s m e =>
      let h := hundredths m e in
      (sign_prefix s ++ decimal (h / 100) ++ "." ++ two_digits (h mod 100))%string
  end.

(** [temp[i]] on a [std::string]: the terminator is readable at
    [i = temp.length()], nothing beyond it. *)
Definition char_at (temp : string) (i : Z) : option ascii :=
  match String.get (Z.to_nat i) temp with
  | Some c => Some c
  | None => if i =? Z.of_nat (String.length temp) then Some Ascii.zero else None
  end.

(** The [for] loop of [display_tmp].  [i] and [digit] never leave
    [0, temp.length() + 1], far below [2^32], so their [uint32_t]
    arithmetic is written without reduction.  [None]: the loop did not
    leave within [fuel] iterations, or read past the terminator. *)
Fixpoint display_tmp_loop (fuel : nat) (temp : string) (i digit : Z)
    (previous_char : ascii) : option (list event) :=
  if (i <? Z.of_nat (String.length temp)) || (digit =? 3) then
    match fuel with
    | O => None
    | S fuel' =>
        match char_at temp i with
        | None => None
        | Some current_char =>
            if Ascii.eqb current_char "." && (0 <? digit) then
              option_map (cons (E_set_alpha previous_char (digit - 1) true))
                (display_tmp_loop fuel' temp (i + 1) digit previous_char)
            else
              option_map (cons (E_set_alpha current_char digit false))
                (display_tmp_loop fuel' temp (i + 1) (digit + 1) current_char)
        end
    end
  else Some [].

Definition display_tmp_glyphs (temp : string) : option (list event) :=
  display_tmp_loop (S (S (String.length temp))) temp 0 0 Ascii.zero.

(** The positions [display_tmp] hands to [set_alpha], in call order. *)
Definition alpha_positions (es : list event) : list Z :=
  flat_map (fun e => match e with
                     | E_set_alpha _ digit _ => [digit]
                     | _ => []
                     end) es.

(** ** The functions of [main.cpp] *)

(** Locals of [led_task_pico] that live across loop iterations. *)
Record PicoLocals : Type := mkPicoLocals {
  pico_led_state : Z;
  count : Z;
  state : bool;
  then_ : Z
}.

Definition pico_locals_init : PicoLocals := mkPicoLocals 0 (-1) true 0.

(** How [main] ends. *)
Inductive main_outcome : Type :=
| SchedulerStarted
| BlinkedThenHalted (blinks : nat).

Section App.

(** Compile-time configuration that [main.h] and [FreeRTOSConfig.h]
    supply. *)
Variable DEBUG : bool.
Variable TEMP_UPPER_LIMIT_C : float.
Variable SENSOR_TASK_DELAY_TICKS : Z.
Variable configTICK_RATE_HZ : Z.

(** [(TickType_t)ms * (TickType_t)configTICK_RATE_HZ / (TickType_t)1000]. *)
Definition pdMS_TO_TICKS (ms : Z) : Z :=
  wrap32 (wrap32 ms * wrap32 configTICK_RATE_HZ) / 1000.

Definition log_debug (msg : string) : M unit :=
  emit (E_printf ("[DEBUG] " ++ msg ++ String "010" EmptyString)).

(** *** LED functions *)

Definition led_set (st : bool) : M unit :=
  emit (E_gpio_put PICO_DEFAULT_LED_PIN st).

Definition led_on : M unit := led_set true.

Definition led_off : M unit := led_set false.

Definition setup_led : M unit :=
  emit (E_gpio_init PICO_DEFAULT_LED_PIN) ;;
  emit (E_gpio_set_dir PICO_DEFAULT_LED_PIN true) ;;
  led_off.

(** *** Setup functions *)

(** [sensor.begin()] reports whether the MCP9808 answered. *)
Definition setup_i2c (sensor_present : bool) : M unit :=
  emit E_i2c_setup ;;
  emit E_display_init ;;
  emit E_sensor_begin ;;
  modify (fun g => mkGlobals (flip_queue g) (irq_queue g) (alert_timer g)
                             sensor_present (read_temp g) (irq_hit g)
                             (irq_enabled g)) ;;
  when (negb sensor_present)
       (emit (E_printf ("[ERROR] MCP9808 not present" ++ String "010" EmptyString))).

Definition setup_gpio : M unit :=
  emit (E_gpio_init ALERT_SENSE_PIN) ;;
  emit (E_gpio_set_dir ALERT_SENSE_PIN false) ;;
  emit (E_gpio_init RED_LED_PIN) ;;
  emit (E_gpio_set_dir RED_LED_PIN true) ;;
  emit (E_gpio_put ALERT_LED_PIN false) ;;
  emit (E_gpio_init ALERT_LED_PIN) ;;
  emit (E_gpio_set_dir ALERT_LED_PIN true) ;;
  emit (E_gpio_put ALERT_LED_PIN false).

Definition setup (sensor_present : bool) : M unit :=
  setup_i2c sensor_present ;;
  setup_led ;;
  setup_gpio.

(** *** IRQ *)

Definition enable_irq (st : bool) : M unit :=
  emit (E_set_irq_enabled ALERT_SENSE_PIN st) ;;
  modify (set_irq_enabled st).

(** The ISR.  Its [static bool state = 1] is never written. *)
Definition gpio_cb (gpio : pin) (events : Z) : M unit :=
  let state := 1 in
  xQueueSendToBack Q_flip state true ;;
  enable_irq false.

(** *** Display *)

Definition display_int (number : Z) : M unit :=
  let number := if (number <? 0) || (9999 <? number) then 9999 else number in
  let bcd_val := bcd number in
  emit E_display_clear ;;
  emit (E_set_number (Z.land (Z.shiftr bcd_val 12) 15) 0 false) ;;
  emit (E_set_number (Z.land (Z.shiftr bcd_val 8) 15) 1 false) ;;
  emit (E_set_number (Z.land (Z.shiftr bcd_val 4) 15) 2 false) ;;
  emit (E_set_number (Z.land bcd_val 15) 3 false) ;;
  emit E_display_draw.

(** [display_tmp_glyphs] is never [None] (see [display_tmp_glyphs_total]
    below); the second branch is there for the type only. *)
Definition display_tmp (value : float) : M unit :=
  match display_tmp_glyphs (fixed2 value) with
  | Some glyphs =>
      emit_all glyphs ;;
      emit (E_set_alpha "c" 3 false) ;;
      emit E_display_draw
  | None => ret tt
  end.

(** *** Tasks: one iteration of each [while (true)] body *)

Definition led_task_pico_iter (l : PicoLocals) (tick : Z) : M PicoLocals :=
  now <- xTaskGetTickCount tick ;;
  if 500 <=? wrap32 (now - then_ l) then
    count1 <-
      (if state l then
         when DEBUG (log_debug "PICO LED FLASH") ;;
         led_on ;;
         display_int (count l + 1) ;;
         ret (count l + 1)
       else
         led_off ;;
         t <- load_read_temp ;;
         display_tmp t ;;
         ret (count l)) ;;
    let led := if state l then GPIO_LED_OFF else GPIO_LED_ON in
    xQueueSendToBack Q_flip led false ;;
    ret (mkPicoLocals led
                      (if 9998 <? count1 then 0 else count1)
                      (negb (state l))
                      now)
  else ret l.

(** [None]: the task is blocked in [xQueueReceive].  With an unbounded
    wait the receive only returns with an item, so the alert LED is
    updated in the same iteration as the red one. *)
Definition led_task_gpio_iter (passed_value_buffer : Z) : M (option Z) :=
  r <- xQueueReceive Q_flip ;;
  match r with
  | None => ret None
  | Some v =>
      when (negb (v =? 0)) (log_debug "GPIO LED FLASH") ;;
      emit (E_gpio_put RED_LED_PIN (v =? GPIO_LED_ON)) ;;
      hit <- load_irq_hit ;;
      emit (E_gpio_put ALERT_LED_PIN hit) ;;
      ret (Some v)
  end.

(** [sample] is what [sensor.read_temp()] returns. *)
Definition sensor_read_task_iter (sample : float) : M unit :=
  emit E_sensor_read ;;
  store_read_temp sample ;;
  vTaskDelay SENSOR_TASK_DELAY_TICKS.

Definition sensor_clear_task_iter (passed_value_buffer : Z) : M (option Z) :=
  r <- xQueueReceive Q_irq ;;
  match r with
  | None => ret None
  | Some v =>
      (if v =? 1 then
         when DEBUG (log_debug "IRQ detected") ;;
         store_irq_hit true ;;
         emit (E_timer_create (pdMS_TO_TICKS 5000) false) ;;
         modify (set_alert_timer (Some (xTimerCreate (pdMS_TO_TICKS 5000) false)))
       else ret tt) ;;
      ret (Some v)
  end.

(** *** Timer callback *)

Definition timer_fired : M unit :=
  when DEBUG (log_debug "Timer fired") ;;
  store_irq_hit false ;;
  t <- load_read_temp ;;
  if PrimFloat.ltb t TEMP_UPPER_LIMIT_C then
    emit (E_clear_alert false) ;;
    store_irq_hit false ;;
    enable_irq true
  else ret tt.

(** The kernel's timer service: the callback of [alert_timer] runs when
    the timer is active and its period has elapsed; a one-shot timer is
    dormant again afterwards. *)
Definition timer_service (elapsed : Z) : M bool :=
  tm <- gets alert_timer ;;
  match tm with
  | Some t =>
      if t_active t && (t_period t <=? elapsed) then
        modify (set_alert_timer
                  (Some (mkTimer (t_period t) (t_auto_reload t) (t_auto_reload t)))) ;;
        timer_fired ;;
        ret true
      else ret false
  | None => ret false
  end.

(** *** Runtime start *)

(** The fallback loop of [main]: [count] blinks of the board LED. *)
Fixpoint blink (count : nat) : M unit :=
  match count with
  | O => ret tt
  | S count' =>
      led_on ;;
      emit (E_sleep_ms 100) ;;
      led_off ;;
      emit (E_sleep_ms 100) ;;
      blink count'
  end.

(** The state before [main] runs: zero-initialised globals; a [NULL]
    queue handle is written as a queue without capacity. *)
Definition boot : Globals :=
  mkGlobals (mkQueue 0 []) (mkQueue 0 []) None false 0%float false false.

(** [main], given what [sensor.begin()] and the four [xTaskCreate]
    calls return. *)
Definition main (sensor_present : bool)
    (pico_task_status gpio_task_status sens_task_status alert_task_status : Z)
    : M main_outcome :=
  when DEBUG (emit E_stdio_init ;; emit (E_sleep_ms 2000)) ;;
  setup sensor_present ;;
  emit (E_display_brightness 1) ;;
  good <- gets sensor_good ;;
  when good (enable_irq true) ;;
  emit (E_task_create "PICO_LED_TASK") ;;
  emit (E_task_create "GPIO_LED_TASK") ;;
  emit (E_task_create "SENSOR_TASK") ;;
  emit (E_task_create "ALERT_TASK") ;;
  emit (E_queue_create Q_flip 4) ;;
  modify (set_queue Q_flip (xQueueCreate 4)) ;;
  emit (E_queue_create Q_irq 1) ;;
  modify (set_queue Q_irq (xQueueCreate 1)) ;;
  if (pico_task_status =? pdPASS) || (gpio_task_status =? pdPASS)
     || (sens_task_status =? pdPASS) then
    emit E_start_scheduler ;;
    ret SchedulerStarted
  else
    blink 5 ;;
    ret (BlinkedThenHalted 5).

End App.

(** ** The running system *)

(** Globals together with the locals each task keeps across iterations. *)
Record System : Type := mkSystem {
  globals : Globals;
  pico : PicoLocals;
  gpio_buffer : Z;
  alert_buffer : Z
}.

(** What can run next: the ISR, one loop iteration of a task, or the
    timer callback.  No guard is put on them, so every interleaving the
    scheduler and the hardware can produce is among the runs. *)
Inductive op : Type :=
| Op_gpio_cb (gpio : pin) (events : Z)
| Op_led_task_pico (tick : Z)
| Op_led_task_gpio
| Op_sensor_read_task (sample : float)
| Op_sensor_clear_task
| Op_timer_fired.

Section Run.

Variable DEBUG : bool.
Variable TEMP_UPPER_LIMIT_C : float.
Variable SENSOR_TASK_DELAY_TICKS : Z.
Variable configTICK_RATE_HZ : Z.

Definition run_op (o : op) (s : System) : System * list event :=
  match o with
  | Op_gpio_cb gpio events =>
      let '(_, g, t) := gpio_cb gpio events (globals s) in
      (mkSystem g (pico s) (gpio_buffer s) (alert_buffer s), t)
  | Op_led_task_pico tick =>
      let '(l, g, t) := led_task_pico_iter DEBUG (pico s) tick (globals s) in
      (mkSystem g l (gpio_buffer s) (alert_buffer s), t)
  | Op_led_task_gpio =>
      let '(r, g, t) := led_task_gpio_iter (gpio_buffer s) (globals s) in
      match r with
      | Some v => (mkSystem g (pico s) v (alert_buffer s), t)
      | None => (s, t)
      end
  | Op_sensor_read_task sample =>
      let '(_, g, t) :=
        sensor_read_task_iter SENSOR_TASK_DELAY_TICKS sample (globals s) in
      (mkSystem g (pico s) (gpio_buffer s) (alert_buffer s), t)
  | Op_sensor_clear_task =>
      let '(r, g, t) :=
        sensor_clear_task_iter DEBUG configTICK_RATE_HZ (alert_buffer s) (globals s) in
      match r with
      | Some v => (mkSystem g (pico s) (gpio_buffer s) v, t)
      | None => (s, t)
      end
  | Op_timer_fired =>
      let '(_, g, t) := timer_fired DEBUG TEMP_UPPER_LIMIT_C (globals s) in
      (mkSystem g (pico s) (gpio_buffer s) (alert_buffer s), t)
  end.

(** The system as [main] leaves it. *)
Definition system_start (sensor_present : bool)
    (pico_task_status gpio_task_status sens_task_status alert_task_status : Z)
    : System :=
  mkSystem
    (globals_of (main DEBUG sensor_present pico_task_status gpio_task_status
                      sens_task_status alert_task_status boot))
    pico_locals_init GPIO_LED_OFF 0.

Inductive reachable : System -> Prop :=
| reach_start : forall sp a b c d, reachable (system_start sp a b c d)
| reach_step : forall s o, reachable s -> reachable (fst (run_op o s)).

End Run.

(** ** Reading runs and traces *)

(** The globals once an alert has been taken: interrupt disabled,
    [irq_hit] set, both queues empty, last reading [t]. *)
Definition alerted (t : float) : Globals :=
  mkGlobals (xQueueCreate 4) (xQueueCreate 1) None true t true false.

(** Classes of events. *)
Definition is_set_alpha (e : event) : bool :=
  match e with
  | E_set_alpha _ _ _ => true
  | _ => false
  end.

(** What the display routines emit; they read no global. *)
Definition display_int_events (number : Z) : list event :=
  trace_of (display_int number boot).

Definition display_tmp_events (value : float) : list event :=
  trace_of (display_tmp value boot).

Definition is_display (e : event) : bool :=
  match e with
  | E_display_clear | E_display_draw
  | E_set_number _ _ _ | E_set_alpha _ _ _ => true
  | _ => false
  end.

(** The pieces of one due iteration of [led_task_pico]: the token it
    sends, the events of its phase, and the counter it keeps. *)
Definition flash_token (st : bool) : Z :=
  if st then GPIO_LED_OFF else GPIO_LED_ON.

Definition phase_events (DEBUG : bool) (l : PicoLocals) (g : Globals) : list event :=
  if state l then
    (if DEBUG
     then [E_printf ("[DEBUG] PICO LED FLASH" ++ String "010" EmptyString)]
     else [])
    ++ E_gpio_put PICO_DEFAULT_LED_PIN true :: display_int_events (count l + 1)
  else
    E_gpio_put PICO_DEFAULT_LED_PIN false :: E_load_read_temp
    :: display_tmp_events (read_temp g).

Definition next_count (l : PicoLocals) : Z :=
  let count1 := if state l then count l + 1 else count l in
  if 9998 <? count1 then 0 else count1.

(** A call that enables the alert-pin interrupt. *)
Definition rearms (e : event) : bool :=
  match e with
  | E_set_irq_enabled ALERT_SENSE_PIN true => true
  | _ => false
  end.

Definition is_timer_fired (o : op) : bool :=
  match o with
  | Op_timer_fired => true
  | _ => false
  end.

(** While [irq_hit] is true the alert-pin interrupt is disabled. *)
Definition alert_inv (g : Globals) : Prop :=
  irq_hit g = true -> irq_enabled g = false.

(** What every run maintains: nothing is ever put on [irq_queue], and so
    [irq_hit] is never set. *)
Definition quiet (g : Globals) : Prop :=
  q_items (irq_queue g) = [] /\ irq_hit g = false.

(** The value a [display_int] frame puts on the display: the four digits
    handed to [set_number] between [clear] and [draw]. *)
Fixpoint shown_counters (es : list event) : list Z :=
  match es with
  | [] => []
  | E_display_clear :: rest =>
      match rest with
      | E_set_number a _ _ :: E_set_number b _ _ :: E_set_number c _ _
        :: E_set_number d _ _ :: E_display_draw :: _ =>
          (1000 * a + 100 * b + 10 * c + d) :: shown_counters rest
      | _ => shown_counters rest
      end
  | _ :: rest => shown_counters rest
  end.

(** Successive iterations of [led_task_pico], one per tick value read. *)
Fixpoint led_task_pico_run (DEBUG : bool) (l : PicoLocals) (g : Globals)
    (ticks : list Z) : PicoLocals * Globals * list event :=
  match ticks with
  | [] => (l, g, [])
  | tick :: ticks' =>
      let '(l1, g1, t1) := led_task_pico_iter DEBUG l tick g in
      let '(l2, g2, t2) := led_task_pico_run DEBUG l1 g1 ticks' in
      (l2, g2, t1 ++ t2)
  end.

(** Tick values 500, 1000, ...: every iteration finds the period elapsed. *)
Definition every_500 (n : nat) : list Z :=
  map (fun k => 500 * Z.of_nat k) (seq 1 n).

(** The globals [main] leaves with the sensor present and all tasks
    created. *)
Definition started : Globals := globals_of (main false true 1 1 1 1 boot).

Definition is_start_scheduler (e : event) : bool :=
  match e with
  | E_start_scheduler => true
  | _ => false
  end.

Definition is_led_on (e : event) : bool :=
  match e with
  | E_gpio_put PICO_DEFAULT_LED_PIN true => true
  | _ => false
  end.

(** Kernel calls in which the calling task can be suspended: a queue
    receive with a non-zero block time, and a delay. *)
Definition suspension_point (e : event) : bool :=
  match e with
  | E_queue_receive _ ticks_to_wait => 0 <? ticks_to_wait
  | E_task_delay _ => true
  | _ => false
  end.

Definition suspends (es : list event) : bool := existsb suspension_point es.

(** All four loop bodies pass a suspension point on every iteration. *)
Definition every_task_suspends (DEBUG : bool) (delay rate : Z) : Prop :=
  forall (g : Globals) (l : PicoLocals) (tick buffer : Z) (sample : float),
    suspends (trace_of (led_task_pico_iter DEBUG l tick g)) = true
    /\ suspends (trace_of (led_task_gpio_iter buffer g)) = true
    /\ suspends (trace_of (sensor_read_task_iter delay sample g)) = true
    /\ suspends (trace_of (sensor_clear_task_iter DEBUG rate buffer g)) = true.

(** ** Further readings of runs and traces *)

(** The loop of [display_tmp] by recursion on the characters still to be
    read; the last case is the extra iteration the [digit == 3] disjunct
    grants at the terminator.  [display_tmp_loop_walk] relates it to
    [display_tmp_loop]. *)
Fixpoint glyph_walk (cs : list ascii) (digit : Z) (previous_char : ascii)
    : list event :=
  match cs with
  | [] => if digit =? 3 then [E_set_alpha Ascii.zero 3 false] else []
  | c :: cs' =>
      if Ascii.eqb c "." && (0 <? digit) then
        E_set_alpha previous_char (digit - 1) true
        :: glyph_walk cs' digit previous_char
      else
        E_set_alpha c digit false :: glyph_walk cs' (digit + 1) c
  end.

(** The value of [digit] once every character is read: the characters
    that take a display position, a ['.'] taking one only when nothing
    precedes it. *)
Fixpoint glyph_count_from (cs : list ascii) (digit : Z) : Z :=
  match cs with
  | [] => digit
  | c :: cs' =>
      if Ascii.eqb c "." && (0 <? digit) then glyph_count_from cs' digit
      else glyph_count_from cs' (digit + 1)
  end.

Definition glyph_count (temp : string) : Z :=
  glyph_count_from (list_ascii_of_string temp) 0.

Definition in_display (position : Z) : Prop := 0 <= position <= 3.

(** A call with the dot flag repeats the character and position of the
    call before it. *)
Fixpoint dots_repeat (last : option (ascii * Z)) (es : list event) : bool :=
  match es with
  | [] => true
  | E_set_alpha c digit has_dot :: rest =>
      (if has_dot then
         match last with
         | Some (c0, d0) => Ascii.eqb c c0 && (digit =? d0)
         | None => false
         end
       else true)
      && dots_repeat (Some (c, digit)) rest
  | _ :: rest => dots_repeat None rest
  end.

(** The bytes the render task hands to [xQueueSendToBack], in order. *)
Definition sent_tokens (es : list event) : list Z :=
  flat_map (fun e => match e with
                     | E_queue_send Q_flip item _ false => [item]
                     | _ => []
                     end) es.

Fixpoint alternate (st : bool) (n : nat) : list Z :=
  match n with
  | O => []
  | S n' => flash_token st :: alternate (negb st) n'
  end.

Definition is_display_clear (e : event) : bool :=
  match e with
  | E_display_clear => true
  | _ => false
  end.

(** Events that would show an alert being handled: the alert LED driven
    high, or a timer created. *)
Definition shows_alert (e : event) : bool :=
  match e with
  | E_gpio_put ALERT_LED_PIN true => true
  | E_timer_create _ _ => true
  | _ => false
  end.

Definition never_alerted (g : Globals) : Prop :=
  q_items (irq_queue g) = [] /\ irq_hit g = false /\ alert_timer g = None.

(** [log_debug]: the size passed to [malloc], and the bytes [sprintf]
    stores for a formatted text (its characters and the terminator). *)
Definition log_debug_allocated (msg : string) : Z :=
  wrap32 (9 + Z.of_nat (String.length msg)).

Definition log_debug_text (msg : string) : string :=
  ("[DEBUG] " ++ msg ++ String "010" EmptyString)%string.

Definition sprintf_stores (text : string) : Z :=
  Z.of_nat (String.length text) + 1.

(** The counter values of [n] successive indicator-on phases, starting
    from a stored [count] of [c]. *)
Fixpoint counter_seq (c : Z) (n : nat) : list Z :=
  match n with
  | O => []
  | S n' => (c + 1) :: counter_seq (if 9998 <? c + 1 then 0 else c + 1) n'
  end.

(** The period test of [led_task_pico]. *)
Definition due (l : PicoLocals) (tick : Z) : bool :=
  500 <=? wrap32 (wrap32 tick - then_ l).


Definition is_led_off (e : event) : bool :=
  match e with
  | E_gpio_put PICO_DEFAULT_LED_PIN false => true
  | _ => false
  end.

(** Iterations of [led_task_gpio], at most [n], until it blocks. *)
Fixpoint led_task_gpio_run (n : nat) (buffer : Z) (g : Globals)
    : Z * Globals * list event :=
  match n with
  | O => (buffer, g, [])
  | S n' =>
      let '(r, g1, t1) := led_task_gpio_iter buffer g in
      match r with
      | None => (buffer, g1, t1)
      | Some v =>
          let '(b2, g2, t2) := led_task_gpio_run n' v g1 in
          (b2, g2, t1 ++ t2)
      end
  end.

(** The levels written to one output pin, in order. *)
Definition pin_eqb (p q : pin) : bool :=
  match p, q with
  | PICO_DEFAULT_LED_PIN, PICO_DEFAULT_LED_PIN
  | RED_LED_PIN, RED_LED_PIN
  | ALERT_LED_PIN, ALERT_LED_PIN
  | ALERT_SENSE_PIN, ALERT_SENSE_PIN => true
  | _, _ => false
  end.

Definition pin_levels (p : pin) (es : list event) : list bool :=
  flat_map (fun e => match e with
                     | E_gpio_put q value => if pin_eqb p q then [value] else []
                     | _ => []
                     end) es.




(** * Properties *)

(** ** The interrupt bridge *)

Lemma gpio_cb_run (gpio : pin) (events : Z) (g : Globals) :
  gpio_cb gpio events g =
  (tt,
   set_irq_enabled false (set_queue Q_flip (fst (queue_send_back (flip_queue g) 1)) g),
   [E_queue_send Q_flip 1 0 true; E_set_irq_enabled ALERT_SENSE_PIN false]).
Proof.
  unfold gpio_cb, xQueueSendToBack, enable_irq, bind, emit, gets, modify, ret.
  cbn [get_queue]. destruct (queue_send_back (flip_queue g) 1) as [new sent].
  reflexivity.
Qed.

(** The ISR run once on the state [main] leaves: its byte sits in the
    capacity-4 [flip_queue], the capacity-1 [irq_queue] is empty. *)
Example gpio_cb_at_start :
  let g := globals_of (gpio_cb ALERT_SENSE_PIN 1 started) in
  flip_queue g = mkQueue 4 [1] /\ irq_queue g = mkQueue 1 [] /\ irq_enabled g = false.
Proof. vm_compute. repeat split. Qed.

(** C1: the byte the ISR sends goes to [flip_queue], the capacity-4 mirror
    queue; [irq_queue], the capacity-1 queue the alert task receives
    from, is left as it was, whatever it holds. *)
Theorem gpio_cb_sends_on_flip_queue (gpio : pin) (events : Z) (g : Globals) :
  let r := gpio_cb gpio events g in
  irq_queue (globals_of r) = irq_queue g
  /\ flip_queue (globals_of r) = fst (queue_send_back (flip_queue g) 1)
  /\ trace_of r = [E_queue_send Q_flip 1 0 true;
                   E_set_irq_enabled ALERT_SENSE_PIN false].
Proof.
  cbv zeta. rewrite gpio_cb_run. repeat split.
Qed.

(** ** Comparison of doubles *)

Lemma SFcompare_antisym (x y : spec_float) :
  SFcompare y x = option_map CompOpp (SFcompare x y).
Proof.
  destruct x as [sx | sx | | sx mx ex], y as [sy | sy | | sy my ey];
    cbn [SFcompare option_map]; try reflexivity;
    try (destruct sx; reflexivity); try (destruct sy; reflexivity);
    try (destruct sx, sy; reflexivity).
  f_equal. rewrite (Z.compare_antisym ey ex).
  change (PosDef.Pos.compare_cont Eq my mx) with (Pos.compare my mx).
  change (PosDef.Pos.compare_cont Eq mx my) with (Pos.compare mx my).
  rewrite (Pos.compare_antisym my mx).
  destruct sx, sy, (ey ?= ex)%Z, (my ?= mx)%positive; reflexivity.
Qed.

(** A reading at or above the limit is not below it. *)
Lemma at_or_above_not_below (limit t : float) :
  PrimFloat.leb limit t = true -> PrimFloat.ltb t limit = false.
Proof.
  rewrite leb_spec, ltb_spec. unfold SFleb, SFltb.
  rewrite (SFcompare_antisym (Prim2SF limit) (Prim2SF t)).
  destruct (SFcompare (Prim2SF limit) (Prim2SF t)) as [[ | | ] | ];
    cbn [option_map CompOpp]; congruence.
Qed.

(** ** Running the monad *)

Ltac unfold_M :=
  unfold store_irq_hit, load_irq_hit, store_read_temp, load_read_temp,
    xQueueSendToBack, xQueueReceive, vTaskDelay, xTaskGetTickCount,
    enable_irq, led_on, led_off, led_set, log_debug, when,
    bind, emit, emit_all, gets, modify, ret in *.

Lemma timer_fired_run (DEBUG : bool) (limit : float) (g : Globals) :
  timer_fired DEBUG limit g =
  (tt,
   (if PrimFloat.ltb (read_temp g) limit
    then set_irq_enabled true (set_irq_hit false (set_irq_hit false g))
    else set_irq_hit false g),
   (if DEBUG
    then [E_printf ("[DEBUG] Timer fired" ++ String "010" EmptyString)]
    else [])
   ++ [E_store_irq_hit false; E_load_read_temp]
   ++ (if PrimFloat.ltb (read_temp g) limit
       then [E_clear_alert false; E_store_irq_hit false;
             E_set_irq_enabled ALERT_SENSE_PIN true]
       else [])).
Proof.
  unfold timer_fired. unfold_M.
  destruct DEBUG; cbn [set_irq_hit read_temp];
    destruct (PrimFloat.ltb (read_temp g) limit); reflexivity.
Qed.

(** ** The alert task and its timer *)

(** C2: with an [AlertToken] waiting in [irq_queue], one iteration of
    [sensor_clear_task] sets [irq_hit] and creates a one-shot timer of
    [pdMS_TO_TICKS(5000)] ticks, but never starts it: the timer is
    dormant, and the kernel's timer service never runs its callback,
    however much time elapses. *)
Theorem sensor_clear_task_leaves_timer_dormant
    (DEBUG : bool) (rate : Z) (buffer : Z) (g : Globals) :
  let g0 := set_queue Q_irq (mkQueue 1 [1]) g in
  let r := sensor_clear_task_iter DEBUG rate buffer g0 in
  result_of r = Some 1
  /\ irq_hit (globals_of r) = true
  /\ alert_timer (globals_of r)
     = Some (mkTimer (pdMS_TO_TICKS rate 5000) false false)
  /\ forall limit elapsed,
       timer_service DEBUG limit elapsed (globals_of r)
       = (false, globals_of r, []).
Proof.
  cbv zeta. unfold sensor_clear_task_iter. unfold_M.
  destruct DEBUG; cbn; repeat split; intros; reflexivity.
Qed.

(** ** The debounce timer callback *)

(** C3: [timer_fired] stores [false] to [irq_hit] before it reads
    [read_temp]; below the limit it then clears the sensor's alert,
    stores [false] again and enables the interrupt; at or above the limit
    it does nothing more, so the interrupt enable is as it was and
    [irq_hit] is false. *)
Theorem timer_fired_spec (DEBUG : bool) (limit : float) (g : Globals) :
  let r := timer_fired DEBUG limit g in
  let log := if DEBUG
             then [E_printf ("[DEBUG] Timer fired" ++ String "010" EmptyString)]
             else [] in
  irq_hit (globals_of r) = false
  /\ (exists rest, trace_of r = log ++ E_store_irq_hit false :: E_load_read_temp :: rest)
  /\ (PrimFloat.ltb (read_temp g) limit = true ->
        trace_of r = log ++ [E_store_irq_hit false; E_load_read_temp;
                             E_clear_alert false; E_store_irq_hit false;
                             E_set_irq_enabled ALERT_SENSE_PIN true]
        /\ irq_enabled (globals_of r) = true)
  /\ (PrimFloat.leb limit (read_temp g) = true ->
        trace_of r = log ++ [E_store_irq_hit false; E_load_read_temp]
        /\ irq_enabled (globals_of r) = irq_enabled g).
Proof.
  cbv zeta. rewrite timer_fired_run. unfold globals_of, trace_of. cbn [fst snd].
  repeat split.
  - destruct (PrimFloat.ltb (read_temp g) limit); reflexivity.
  - eexists. reflexivity.
  - rewrite H. reflexivity.
  - rewrite H. reflexivity.
  - rewrite (at_or_above_not_below _ _ H). reflexivity.
  - rewrite (at_or_above_not_below _ _ H). reflexivity.
Qed.

Lemma timer_fired_spec_witness :
  irq_enabled (globals_of (timer_fired false 24%float (alerted 20%float))) = true
  /\ irq_enabled (globals_of (timer_fired false 24%float (alerted 30%float))) = false.
Proof.
  split.
  - destruct (timer_fired_spec false 24%float (alerted 20%float)) as (_ & _ & Hbelow & _).
    apply Hbelow. vm_compute. reflexivity.
  - destruct (timer_fired_spec false 24%float (alerted 30%float)) as (_ & _ & _ & Habove).
    apply Habove. vm_compute. reflexivity.
Defined.

(** ** The display routines touch no global *)

Lemma display_tmp_loop_alpha (fuel : nat) :
  forall temp i digit previous_char es,
    display_tmp_loop fuel temp i digit previous_char = Some es ->
    forallb is_set_alpha es = true.
Proof.
  induction fuel as [| fuel IH]; intros temp i digit previous_char es;
    cbn [display_tmp_loop];
    destruct ((i <? Z.of_nat (String.length temp)) || (digit =? 3));
    try (intros [= <-]; reflexivity); try discriminate.
  destruct (char_at temp i) as [c |]; [| discriminate].
  destruct (Ascii.eqb c "." && (0 <? digit)).
  - destruct (display_tmp_loop fuel temp (i + 1) digit previous_char) as [tl |] eqn:E;
      [| discriminate].
    intros [= <-]. cbn. eauto.
  - destruct (display_tmp_loop fuel temp (i + 1) (digit + 1) c) as [tl |] eqn:E;
      [| discriminate].
    intros [= <-]. cbn. eauto.
Qed.

Lemma display_int_run (number : Z) (g : Globals) :
  display_int number g = (tt, g, display_int_events number).
Proof. reflexivity. Qed.

Lemma display_tmp_run (value : float) (g : Globals) :
  display_tmp value g = (tt, g, display_tmp_events value).
Proof.
  unfold display_tmp_events, display_tmp.
  destruct (display_tmp_glyphs (fixed2 value)); reflexivity.
Qed.

Lemma display_int_events_display (number : Z) :
  forallb is_display (display_int_events number) = true.
Proof. reflexivity. Qed.

Lemma display_tmp_events_display (value : float) :
  forallb is_display (display_tmp_events value) = true.
Proof.
  unfold display_tmp_events, display_tmp, display_tmp_glyphs.
  destruct (display_tmp_loop _ _ _ _ _) as [es |] eqn:E; [| reflexivity].
  apply display_tmp_loop_alpha in E.
  unfold_M. cbn [trace_of snd]. rewrite forallb_app. cbn.
  rewrite andb_true_r.
  rewrite forallb_forall in *. intros e He. specialize (E e He).
  destruct e; try discriminate; reflexivity.
Qed.

(** ** One iteration of the render task, spelled out *)

Lemma led_task_pico_iter_run (DEBUG : bool) (l : PicoLocals) (tick : Z) (g : Globals) :
  led_task_pico_iter DEBUG l tick g =
  if 500 <=? wrap32 (wrap32 tick - then_ l) then
    (mkPicoLocals (flash_token (state l)) (next_count l) (negb (state l)) (wrap32 tick),
     set_queue Q_flip (fst (queue_send_back (flip_queue g) (flash_token (state l)))) g,
     E_get_tick_count :: phase_events DEBUG l g
     ++ [E_queue_send Q_flip (flash_token (state l)) 0 false])
  else (l, g, [E_get_tick_count]).
Proof.
  unfold led_task_pico_iter, phase_events, next_count, flash_token.
  unfold bind at 1. unfold xTaskGetTickCount at 1. unfold bind at 1, emit at 1, ret at 1.
  cbn [app].
  destruct (500 <=? wrap32 (wrap32 tick - then_ l)); [| reflexivity].
  destruct (state l).
  - unfold_M.
    destruct DEBUG; cbv beta iota zeta; rewrite display_int_run;
      cbv beta iota zeta; cbn [get_queue];
      destruct (queue_send_back (flip_queue g) GPIO_LED_OFF) as [new sent];
      cbv beta iota zeta; cbn [app fst]; rewrite ?app_nil_r; reflexivity.
  - unfold_M. cbv beta iota zeta. rewrite display_tmp_run.
    cbv beta iota zeta; cbn [get_queue].
    destruct (queue_send_back (flip_queue g) GPIO_LED_ON) as [new sent].
    cbv beta iota zeta; cbn [app fst]; rewrite ?app_nil_r; reflexivity.
Qed.

(** ** One iteration of the other tasks, spelled out *)

Lemma led_task_gpio_iter_run (buffer : Z) (g : Globals) :
  led_task_gpio_iter buffer g =
  match q_items (flip_queue g) with
  | [] => (None, g, [E_queue_receive Q_flip portMAX_DELAY])
  | v :: rest =>
      (Some v,
       set_queue Q_flip (mkQueue (q_capacity (flip_queue g)) rest) g,
       E_queue_receive Q_flip portMAX_DELAY
       :: (if negb (v =? 0)
           then [E_printf ("[DEBUG] GPIO LED FLASH" ++ String "010" EmptyString)]
           else [])
       ++ [E_gpio_put RED_LED_PIN (v =? GPIO_LED_ON); E_load_irq_hit;
           E_gpio_put ALERT_LED_PIN (irq_hit g)])
  end.
Proof.
  unfold led_task_gpio_iter. unfold_M. cbn [get_queue]. unfold queue_receive.
  destruct (q_items (flip_queue g)) as [| v rest]; [reflexivity |].
  destruct (v =? 0); reflexivity.
Qed.

Lemma sensor_read_task_iter_run (delay : Z) (sample : float) (g : Globals) :
  sensor_read_task_iter delay sample g =
  (tt, set_read_temp sample g,
   [E_sensor_read; E_store_read_temp sample; E_task_delay delay]).
Proof. reflexivity. Qed.

Lemma sensor_clear_task_iter_run (DEBUG : bool) (rate : Z) (buffer : Z) (g : Globals) :
  sensor_clear_task_iter DEBUG rate buffer g =
  match q_items (irq_queue g) with
  | [] => (None, g, [E_queue_receive Q_irq portMAX_DELAY])
  | v :: rest =>
      let g1 := set_queue Q_irq (mkQueue (q_capacity (irq_queue g)) rest) g in
      if v =? 1 then
        (Some v,
         set_alert_timer (Some (xTimerCreate (pdMS_TO_TICKS rate 5000) false))
                         (set_irq_hit true g1),
         E_queue_receive Q_irq portMAX_DELAY
         :: (if DEBUG
             then [E_printf ("[DEBUG] IRQ detected" ++ String "010" EmptyString)]
             else [])
         ++ [E_store_irq_hit true; E_timer_create (pdMS_TO_TICKS rate 5000) false])
      else (Some v, g1, [E_queue_receive Q_irq portMAX_DELAY])
  end.
Proof.
  unfold sensor_clear_task_iter. unfold_M. cbn [get_queue]. unfold queue_receive.
  destruct (q_items (irq_queue g)) as [| v rest]; [reflexivity |].
  cbv zeta. destruct (v =? 1); [| reflexivity].
  destruct DEBUG; reflexivity.
Qed.

(** ** Who enables the interrupt *)

Lemma existsb_display_free (f : event -> bool) (es : list event) :
  (forall e, is_display e = true -> f e = false) ->
  forallb is_display es = true ->
  existsb f es = false.
Proof.
  intros Hf. induction es as [| e es IH]; cbn; [reflexivity |].
  intros H. apply andb_prop in H as [He Hes].
  rewrite (Hf e He), (IH Hes). reflexivity.
Qed.

Lemma rearms_display (e : event) : is_display e = true -> rearms e = false.
Proof. destruct e; cbn; congruence. Qed.

Lemma phase_events_no_rearm (DEBUG : bool) (l : PicoLocals) (g : Globals) :
  existsb rearms (phase_events DEBUG l g) = false.
Proof.
  unfold phase_events. destruct (state l).
  - pose proof (existsb_display_free rearms _ rearms_display
                  (display_int_events_display (count l + 1))) as Hint.
    rewrite existsb_app. cbn [existsb]. rewrite Hint.
    destruct DEBUG; reflexivity.
  - pose proof (existsb_display_free rearms _ rearms_display
                  (display_tmp_events_display (read_temp g))) as Htmp.
    cbn [existsb]. rewrite Htmp. reflexivity.
Qed.

(** Trace and interrupt enable after each operation. *)
Lemma run_op_irq (DEBUG : bool) (limit : float) (delay rate : Z)
    (o : op) (s : System) :
  let r := run_op DEBUG limit delay rate o s in
  let below := PrimFloat.ltb (read_temp (globals s)) limit in
  existsb rearms (snd r) = is_timer_fired o && below
  /\ irq_enabled (globals (fst r)) =
     match o with
     | Op_gpio_cb _ _ => false
     | Op_timer_fired => below || irq_enabled (globals s)
     | _ => irq_enabled (globals s)
     end.
Proof.
  cbv zeta. destruct o as [gpio events | tick | | sample | |]; cbn [run_op is_timer_fired andb].
  - rewrite gpio_cb_run. split; reflexivity.
  - rewrite led_task_pico_iter_run.
    destruct (500 <=? wrap32 (wrap32 tick - then_ (pico s))); cbn [fst snd globals].
    + split; [| reflexivity].
      cbn [existsb rearms orb]. rewrite existsb_app, phase_events_no_rearm. reflexivity.
    + split; reflexivity.
  - rewrite led_task_gpio_iter_run.
    destruct (q_items (flip_queue (globals s))) as [| v rest]; cbn [fst snd globals].
    + split; reflexivity.
    + split; [| reflexivity]. destruct (negb (v =? 0)); reflexivity.
  - rewrite sensor_read_task_iter_run. split; reflexivity.
  - rewrite sensor_clear_task_iter_run.
    destruct (q_items (irq_queue (globals s))) as [| v rest]; cbn [fst snd globals].
    + split; reflexivity.
    + cbv zeta. destruct (v =? 1); cbn [fst snd globals]; [| split; reflexivity].
      split; [| reflexivity]. destruct DEBUG; reflexivity.
  - rewrite timer_fired_run. cbn [fst snd globals].
    destruct (PrimFloat.ltb (read_temp (globals s)) limit), DEBUG; split; reflexivity.
Qed.

(** C4: among the operations that run after [main] has armed the
    interrupt, a call that enables it is made exactly by [timer_fired]
    reading a temperature below the limit; from the disabled state the
    interrupt becomes enabled by that operation and by no other; and the
    ISR always leaves it disabled. *)
Theorem irq_rearmed_only_by_timer (DEBUG : bool) (limit : float) (delay rate : Z)
    (o : op) (s : System) :
  let r := run_op DEBUG limit delay rate o s in
  let below := PrimFloat.ltb (read_temp (globals s)) limit in
  (existsb rearms (snd r) = true <-> o = Op_timer_fired /\ below = true)
  /\ (irq_enabled (globals s) = false ->
      (irq_enabled (globals (fst r)) = true <-> o = Op_timer_fired /\ below = true))
  /\ (forall gpio events,
        irq_enabled
          (globals (fst (run_op DEBUG limit delay rate (Op_gpio_cb gpio events) s)))
        = false).
Proof.
  cbv zeta.
  destruct (run_op_irq DEBUG limit delay rate o s) as [Htrace Henabled].
  cbv zeta in Htrace, Henabled.
  assert (Hfired : is_timer_fired o = true <-> o = Op_timer_fired)
    by (destruct o; cbn; split; congruence).
  split; [| split].
  - rewrite Htrace, andb_true_iff, Hfired. reflexivity.
  - intros Hoff. rewrite Henabled, Hoff.
    destruct o; try (split; [discriminate | intros [[=] _]]).
    rewrite orb_false_r. split; [intros ->; split; reflexivity | intros [_ ->]; reflexivity].
  - intros gpio events.
    apply (run_op_irq DEBUG limit delay rate (Op_gpio_cb gpio events) s).
Qed.

Lemma irq_rearmed_only_by_timer_witness :
  irq_enabled
    (globals (fst (run_op false 24%float 100 1000 Op_timer_fired
                     (mkSystem (alerted 20%float) pico_locals_init 0 0))))
  = true.
Proof.
  destruct (irq_rearmed_only_by_timer false 24%float 100 1000 Op_timer_fired
              (mkSystem (alerted 20%float) pico_locals_init 0 0))
    as (_ & Hiff & _).
  apply Hiff; [reflexivity | split; [reflexivity | vm_compute; reflexivity]].
Defined.

(** ** The alert flag and the interrupt enable *)

Lemma quiet_alert_inv (g : Globals) : quiet g -> alert_inv g.
Proof. intros [_ Hhit] H. congruence. Qed.







(** ** The render task's counter *)

(** A frame written by [display_int] reads back as the number shown. *)
Lemma display_int_shows (number : Z) :
  0 <= number <= 9999 ->
  shown_counters (display_int_events number) = [number].
Proof.
  intros Hrange.
  assert (Hall : forallb
            (fun k => match shown_counters (display_int_events (Z.of_nat k)) with
                      | [v] => v =? Z.of_nat k
                      | _ => false
                      end)
            (seq 0 (Z.to_nat 10000)) = true) by (vm_compute; reflexivity).
  rewrite forallb_forall in Hall.
  specialize (Hall (Z.to_nat number)).
  rewrite Z2Nat.id in Hall by lia.
  assert (Hin : In (Z.to_nat number) (seq 0 (Z.to_nat 10000))) by (apply in_seq; lia).
  specialize (Hall Hin).
  destruct (shown_counters (display_int_events number)) as [| v [| w tl]];
    try discriminate.
  apply Z.eqb_eq in Hall. congruence.
Qed.

(** An indicator-on phase shows [count + 1] and keeps it, except that
    after showing 9999 it stores 0. *)
Lemma led_task_pico_counter_step (DEBUG : bool) (l : PicoLocals) (tick : Z) (g : Globals) :
  500 <= wrap32 (wrap32 tick - then_ l) ->
  state l = true ->
  -1 <= count l <= 9998 ->
  let r := led_task_pico_iter DEBUG l tick g in
  shown_counters (trace_of r) = [count l + 1]
  /\ count (result_of r) = (if count l =? 9998 then 0 else count l + 1).
Proof.
  intros Hdue Hon Hrange. cbv zeta. rewrite led_task_pico_iter_run.
  apply Z.leb_le in Hdue. rewrite Hdue.
  unfold trace_of, result_of, phase_events, next_count. cbn [fst snd count].
  rewrite Hon. split.
  - pose proof (display_int_shows (count l + 1) ltac:(lia)) as Hshown.
    unfold display_int_events, trace_of in *.
    destruct DEBUG; cbn in Hshown |- *; exact Hshown.
  - destruct (Z.eqb_spec (count l) 9998) as [-> | Hne]; [reflexivity |].
    destruct (Z.ltb_spec 9998 (count l + 1)); [lia | reflexivity].
Qed.

(** C6: run from start-up with the period elapsed at every iteration,
    the render task shows 0, 1, 2, ..., 9999 and then 1, not 0: after
    showing 9999 the counter is stored as 0 and incremented before it is
    next shown. *)
Theorem counter_after_9999_shows_1 :
  let shown :=
    shown_counters
      (trace_of (led_task_pico_run false pico_locals_init started
                   (every_500 (Z.to_nat 20004)))) in
  firstn 3 shown = [0; 1; 2]
  /\ firstn 3 (skipn (Z.to_nat 9998) shown) = [9998; 9999; 1]
  /\ forallb (fun v => v <=? 9999) shown = true.
Proof. vm_compute. repeat split. Qed.

(** ** The render task's flash tokens *)

(** C7: an iteration of the render task whose period has elapsed sets
    the board LED to [state], renders the counter (LED on) or the
    temperature (LED off), and then sends on [flip_queue] the token
    opposite to what it did to the LED: [GPIO_LED_OFF] after switching it
    on, [GPIO_LED_ON] after switching it off.  The token is appended
    when the queue has room, and the next iteration is the other phase. *)
Theorem flash_token_inverts_indicator
    (DEBUG : bool) (l : PicoLocals) (tick : Z) (g : Globals) :
  500 <= wrap32 (wrap32 tick - then_ l) ->
  let r := led_task_pico_iter DEBUG l tick g in
  let token := if state l then GPIO_LED_OFF else GPIO_LED_ON in
  (exists log,
      trace_of r =
      E_get_tick_count :: log
      ++ E_gpio_put PICO_DEFAULT_LED_PIN (state l)
      :: (if state l then display_int_events (count l + 1)
          else E_load_read_temp :: display_tmp_events (read_temp g))
      ++ [E_queue_send Q_flip token 0 false])
  /\ flip_queue (globals_of r) = fst (queue_send_back (flip_queue g) token)
  /\ (queue_full (flip_queue g) = false ->
      q_items (flip_queue (globals_of r)) = q_items (flip_queue g) ++ [token])
  /\ state (result_of r) = negb (state l).
Proof.
  intros Hdue. cbv zeta. rewrite led_task_pico_iter_run.
  apply Z.leb_le in Hdue. rewrite Hdue.
  unfold trace_of, globals_of, result_of, phase_events, flash_token.
  cbn [fst snd state set_queue flip_queue].
  repeat split.
  - destruct (state l).
    + eexists. rewrite <- app_assoc. reflexivity.
    + exists []. reflexivity.
  - intros Hroom. unfold queue_send_back. rewrite Hroom.
    destruct (state l); reflexivity.
Qed.

Lemma flash_token_inverts_indicator_witness :
  q_items (flip_queue (globals_of (led_task_pico_iter false pico_locals_init 500 started)))
  = [GPIO_LED_OFF].
Proof.
  destruct (flash_token_inverts_indicator false pico_locals_init 500 started)
    as (_ & _ & Hroom & _).
  - vm_compute. discriminate.
  - apply Hroom. reflexivity.
Defined.

(** ** Start-up *)

(** [main] starts the scheduler exactly when one of the first three
    [xTaskCreate] calls returned [pdPASS]; what the fourth returned is
    not looked at. *)
Lemma main_outcome_spec (DEBUG sp : bool) (a b c d : Z) :
  result_of (main DEBUG sp a b c d boot) =
  if (a =? pdPASS) || (b =? pdPASS) || (c =? pdPASS)
  then SchedulerStarted else BlinkedThenHalted 5.
Proof.
  unfold main, setup, setup_i2c, setup_led, setup_gpio. unfold_M.
  destruct DEBUG, sp; cbn;
    destruct ((a =? pdPASS) || (b =? pdPASS) || (c =? pdPASS)); reflexivity.
Qed.

(** [main] enables the interrupt exactly when the sensor answered. *)
Lemma main_arms_iff_sensor_present (DEBUG sp : bool) (a b c d : Z) :
  let r := main DEBUG sp a b c d boot in
  existsb rearms (trace_of r) = sp /\ irq_enabled (globals_of r) = sp.
Proof.
  cbv zeta. unfold main, setup, setup_i2c, setup_led, setup_gpio. unfold_M.
  destruct DEBUG, sp; cbn;
    destruct ((a =? pdPASS) || (b =? pdPASS) || (c =? pdPASS)); split; reflexivity.
Qed.

(** C8: when only the alert task could be created, [main] does not start
    the scheduler: it blinks the board LED five times and halts, although
    a task exists. *)
Theorem main_halts_with_alert_task_created (DEBUG sensor_present : bool) :
  let r := main DEBUG sensor_present (-1) (-1) (-1) pdPASS boot in
  result_of r = BlinkedThenHalted 5
  /\ existsb is_start_scheduler (trace_of r) = false
  /\ List.length (filter is_led_on (trace_of r)) = 5%nat.
Proof. destruct DEBUG, sensor_present; vm_compute; repeat split. Qed.

(** ** Suspension points *)

Lemma suspension_point_display (e : event) :
  is_display e = true -> suspension_point e = false.
Proof. destruct e; cbn; congruence. Qed.

Lemma phase_events_no_suspension (DEBUG : bool) (l : PicoLocals) (g : Globals) :
  existsb suspension_point (phase_events DEBUG l g) = false.
Proof.
  unfold phase_events. destruct (state l).
  - pose proof (existsb_display_free suspension_point _ suspension_point_display
                  (display_int_events_display (count l + 1))) as Hint.
    rewrite existsb_app. cbn [existsb]. rewrite Hint.
    destruct DEBUG; reflexivity.
  - pose proof (existsb_display_free suspension_point _ suspension_point_display
                  (display_tmp_events_display (read_temp g))) as Htmp.
    cbn [existsb]. rewrite Htmp. reflexivity.
Qed.

(** The first iteration of [led_task_pico] after start-up, at tick 500:
    a full indicator-on phase, and no call that can suspend the task. *)
Lemma led_task_pico_spins_at_500 :
  suspends (trace_of (led_task_pico_iter false pico_locals_init 500 started)) = false.
Proof. vm_compute. reflexivity. Qed.

Lemma not_every_task_suspends : ~ every_task_suspends false 100 1000.
Proof.
  intros H.
  destruct (H started pico_locals_init 500 0 0%float) as [Hpico _].
  rewrite led_task_pico_spins_at_500 in Hpico. discriminate.
Qed.

(** C9, as the code has it: the mirror task and the alert task pass a
    blocking queue receive, and the sensor-poll task a delay, on every
    iteration; the render task never does: it reads the tick count and
    sends with a zero block time, whether or not its period has elapsed. *)
Theorem three_tasks_suspend_render_task_polls
    (DEBUG : bool) (delay rate : Z)
    (g : Globals) (l : PicoLocals) (tick buffer : Z) (sample : float) :
  suspends (trace_of (led_task_gpio_iter buffer g)) = true
  /\ suspends (trace_of (sensor_read_task_iter delay sample g)) = true
  /\ suspends (trace_of (sensor_clear_task_iter DEBUG rate buffer g)) = true
  /\ suspends (trace_of (led_task_pico_iter DEBUG l tick g)) = false.
Proof.
  unfold suspends. split; [| split; [| split]].
  - rewrite led_task_gpio_iter_run.
    destruct (q_items (flip_queue g)); reflexivity.
  - rewrite sensor_read_task_iter_run. reflexivity.
  - rewrite sensor_clear_task_iter_run.
    destruct (q_items (irq_queue g)) as [| v rest]; [reflexivity |].
    cbv zeta. destruct (v =? 1); reflexivity.
  - rewrite led_task_pico_iter_run.
    destruct (500 <=? wrap32 (wrap32 tick - then_ l)); [| reflexivity].
    cbn [trace_of snd existsb suspension_point orb].
    rewrite existsb_app, phase_events_no_suspension. reflexivity.
Qed.

(** ** Temperature rendering *)

(** C10: for 100.0, formatted as 100.00, [display_tmp] hands [set_alpha]
    the positions 0, 1, 2, 2 (the dot), 3 and then 4, before the final
    unit glyph at 3; for -10.0 likewise. *)
Theorem display_tmp_writes_position_4 :
  fixed2 100%float = "100.00"%string
  /\ alpha_positions (display_tmp_events 100%float) = [0; 1; 2; 2; 3; 4; 3]
  /\ fixed2 (-10)%float = "-10.00"%string
  /\ alpha_positions (display_tmp_events (-10)%float) = [0; 1; 2; 2; 3; 4; 3].
Proof. vm_compute. repeat split. Qed.

Lemma get_in_range (temp : string) :
  forall n, (n < String.length temp)%nat -> String.get n temp <> None.
Proof.
  induction temp as [| a temp IH]; intros n Hn; cbn in *; [lia |].
  destruct n as [| n]; [discriminate | apply IH; lia].
Qed.

Lemma get_at_length (temp : string) : String.get (String.length temp) temp = None.
Proof. induction temp as [| a temp IH]; cbn; [reflexivity | exact IH]. Qed.

Lemma char_at_in_range (temp : string) (i : Z) :
  0 <= i < Z.of_nat (String.length temp) -> exists c, char_at temp i = Some c.
Proof.
  intros Hi. unfold char_at.
  destruct (String.get (Z.to_nat i) temp) as [c |] eqn:E; [eauto |].
  exfalso. apply (get_in_range temp (Z.to_nat i)); [lia | exact E].
Qed.

Lemma char_at_terminator (temp : string) :
  char_at temp (Z.of_nat (String.length temp)) = Some Ascii.zero.
Proof.
  unfold char_at. rewrite Nat2Z.id, get_at_length, Z.eqb_refl. reflexivity.
Qed.

(** The loop always leaves: at most [temp.length() + 1] iterations. *)
Lemma display_tmp_loop_leaves (temp : string) :
  forall (fuel : nat) (i digit : Z) (previous_char : ascii),
    0 <= i ->
    Z.of_nat (String.length temp) + 2 - i <= Z.of_nat fuel ->
    i <= Z.of_nat (String.length temp)
    \/ (i = Z.of_nat (String.length temp) + 1 /\ digit <> 3) ->
    exists es, display_tmp_loop fuel temp i digit previous_char = Some es.
Proof.
  induction fuel as [| fuel IH]; intros i digit previous_char Hi Hfuel Hpos.
  - cbn in Hfuel. lia.
  - cbn [display_tmp_loop].
    destruct Hpos as [Hle | [-> Hdigit]].
    + destruct (Z.ltb_spec i (Z.of_nat (String.length temp))) as [Hlt | Hge].
      * cbn [orb].
        destruct (char_at_in_range temp i ltac:(lia)) as [c ->].
        destruct (Ascii.eqb c "." && (0 <? digit)).
        -- destruct (IH (i + 1) digit previous_char) as [es ->];
             [lia | lia | left; lia | cbn; eauto].
        -- destruct (IH (i + 1) (digit + 1) c) as [es ->];
             [lia | lia | left; lia | cbn; eauto].
      * assert (i = Z.of_nat (String.length temp)) as -> by lia.
        cbn [orb]. destruct (Z.eqb_spec digit 3) as [-> | Hne]; [| eauto].
        rewrite char_at_terminator. cbn [Ascii.eqb Ascii.zero andb Bool.eqb].
        destruct (IH (Z.of_nat (String.length temp) + 1) (3 + 1) Ascii.zero)
          as [es ->]; [lia | lia | right; split; lia | cbn; eauto].
    + destruct (Z.ltb_spec (Z.of_nat (String.length temp) + 1)
                           (Z.of_nat (String.length temp))); [lia |].
      cbn [orb]. destruct (Z.eqb_spec digit 3); [contradiction | eauto].
Qed.

(** [display_tmp] therefore always reaches its final [set_alpha]. *)
Lemma display_tmp_glyphs_total (temp : string) :
  exists es, display_tmp_glyphs temp = Some es.
Proof.
  unfold display_tmp_glyphs. apply display_tmp_loop_leaves; [lia | lia | left; lia].
Qed.

(** * Further properties *)

(** ** The temperature loop, character by character *)

Lemma char_at_shift (c : ascii) (temp : string) (i : Z) :
  0 <= i -> char_at (String c temp) (i + 1) = char_at temp i.
Proof.
  intros Hi. unfold char_at.
  replace (Z.to_nat (i + 1)) with (S (Z.to_nat i)) by lia.
  cbn [String.get String.length].
  replace (i + 1 =? Z.of_nat (S (String.length temp)))
    with (i =? Z.of_nat (String.length temp)); [reflexivity |].
  destruct (Z.eqb_spec i (Z.of_nat (String.length temp)));
    destruct (Z.eqb_spec (i + 1) (Z.of_nat (S (String.length temp)))); lia || reflexivity.
Qed.

Lemma display_tmp_loop_shift (c : ascii) (temp : string) (fuel : nat) :
  forall i digit previous_char,
    0 <= i ->
    display_tmp_loop fuel (String c temp) (i + 1) digit previous_char
    = display_tmp_loop fuel temp i digit previous_char.
Proof.
  assert (Hlt : forall i, (i + 1 <? Z.of_nat (String.length (String c temp)))
                          = (i <? Z.of_nat (String.length temp))).
  { intros i. cbn [String.length].
    destruct (Z.ltb_spec i (Z.of_nat (String.length temp)));
      destruct (Z.ltb_spec (i + 1) (Z.of_nat (S (String.length temp))));
      lia || reflexivity. }
  induction fuel as [| fuel IH]; intros i digit previous_char Hi;
    cbn [display_tmp_loop]; rewrite Hlt.
  - reflexivity.
  - rewrite char_at_shift by exact Hi.
    destruct (char_at temp i) as [current_char |]; [| reflexivity].
    rewrite !IH by lia. reflexivity.
Qed.

Lemma display_tmp_loop_walk (temp : string) :
  forall fuel digit previous_char,
    (String.length temp + 2 <= fuel)%nat ->
    display_tmp_loop fuel temp 0 digit previous_char
    = Some (glyph_walk (list_ascii_of_string temp) digit previous_char).
Proof.
  induction temp as [| c temp IH]; intros fuel digit previous_char Hfuel.
  - destruct fuel as [| [| fuel]]; cbn in Hfuel; try lia.
    cbn [display_tmp_loop list_ascii_of_string glyph_walk String.length].
    change (0 <? Z.of_nat 0) with false. cbn [orb].
    destruct (Z.eqb_spec digit 3) as [-> | Hne]; [| reflexivity].
    reflexivity.
  - destruct fuel as [| fuel]; cbn in Hfuel; [lia |].
    cbn [display_tmp_loop list_ascii_of_string glyph_walk].
    replace (0 <? Z.of_nat (String.length (String c temp))) with true
      by (cbn [String.length]; symmetry; apply Z.ltb_lt; lia).
    cbn [orb].
    change (char_at (String c temp) 0) with (Some c).
    change (0 + 1) with 1.
    rewrite !(display_tmp_loop_shift c temp fuel 0) by lia.
    rewrite !IH by lia.
    destruct (Ascii.eqb c "." && (0 <? digit)); reflexivity.
Qed.

Lemma display_tmp_glyphs_walk (temp : string) :
  display_tmp_glyphs temp = Some (glyph_walk (list_ascii_of_string temp) 0 Ascii.zero).
Proof. unfold display_tmp_glyphs. apply display_tmp_loop_walk. lia. Qed.

Lemma glyph_count_from_ge (cs : list ascii) :
  forall digit, digit <= glyph_count_from cs digit.
Proof.
  induction cs as [| c cs IH]; intros digit; cbn [glyph_count_from]; [lia |].
  destruct (Ascii.eqb c "." && (0 <? digit)).
  - apply IH.
  - specialize (IH (digit + 1)). lia.
Qed.

Lemma glyph_walk_positions (cs : list ascii) :
  forall digit previous_char,
    0 <= digit <= 4 ->
    Forall in_display (alpha_positions (glyph_walk cs digit previous_char))
    <-> glyph_count_from cs digit <= 4.
Proof.
  induction cs as [| c cs IH]; intros digit previous_char Hdigit;
    cbn [glyph_walk glyph_count_from].
  - split; [lia |]. intros _.
    destruct (digit =? 3); cbn; repeat constructor; lia.
  - destruct (Ascii.eqb c "." && (0 <? digit)) eqn:Hdot.
    + apply andb_prop in Hdot as [_ Hpos]. apply Z.ltb_lt in Hpos.
      change (alpha_positions (E_set_alpha previous_char (digit - 1) true
                               :: glyph_walk cs digit previous_char))
        with ((digit - 1) :: alpha_positions (glyph_walk cs digit previous_char)).
      rewrite <- (IH digit previous_char Hdigit).
      split.
      * intros H. inversion H. assumption.
      * intros H. constructor; [unfold in_display; lia | exact H].
    + change (alpha_positions (E_set_alpha c digit false
                               :: glyph_walk cs (digit + 1) c))
        with (digit :: alpha_positions (glyph_walk cs (digit + 1) c)).
      destruct (Z.eq_dec digit 4) as [-> | Hne].
      * pose proof (glyph_count_from_ge cs (4 + 1)) as Hge.
        split; [| lia].
        intros H. inversion H as [| p ps Hp _]. unfold in_display in Hp. lia.
      * rewrite <- (IH (digit + 1) c) by lia.
        split.
        -- intros H. inversion H. assumption.
        -- intros H. constructor; [unfold in_display; lia | exact H].
Qed.

Lemma glyph_walk_length (cs : list ascii) :
  forall digit previous_char,
    (List.length (glyph_walk cs digit previous_char) <= S (List.length cs))%nat.
Proof.
  induction cs as [| c cs IH]; intros digit previous_char; cbn [glyph_walk].
  - destruct (digit =? 3); cbn; lia.
  - destruct (Ascii.eqb c "." && (0 <? digit)); cbn [List.length];
      apply le_n_S, IH.
Qed.

Lemma glyph_walk_dots (cs : list ascii) :
  forall digit previous_char,
    0 <= digit ->
    dots_repeat (if 0 <? digit then Some (previous_char, digit - 1) else None)
                (glyph_walk cs digit previous_char) = true.
Proof.
  induction cs as [| c cs IH]; intros digit previous_char Hdigit;
    cbn [glyph_walk].
  - destruct (digit =? 3); reflexivity.
  - destruct (Ascii.eqb c "." && (0 <? digit)) eqn:Hdot.
    + apply andb_prop in Hdot as [_ Hpos]. rewrite Hpos.
      cbn [dots_repeat]. rewrite Ascii.eqb_refl, Z.eqb_refl. cbn [andb].
      specialize (IH digit previous_char Hdigit). rewrite Hpos in IH. exact IH.
    + cbn [dots_repeat andb].
      specialize (IH (digit + 1) c ltac:(lia)).
      replace (0 <? digit + 1) with true in IH by (symmetry; apply Z.ltb_lt; lia).
      replace (digit + 1 - 1) with digit in IH by lia. exact IH.
Qed.

Lemma list_ascii_length (temp : string) :
  List.length (list_ascii_of_string temp) = String.length temp.
Proof. induction temp as [| c temp IH]; cbn; congruence. Qed.

(** X1: for every text, the loop of [display_tmp] leaves after at most
    [temp.length() + 1] iterations, never reading past the terminator;
    and whatever the value, the routine's last two display calls are the
    unit glyph at position 3 and [draw]. *)
Theorem display_tmp_terminates_with_unit (temp : string) (value : float) :
  (exists glyphs,
      display_tmp_glyphs temp = Some glyphs
      /\ (List.length glyphs <= S (String.length temp))%nat)
  /\ (exists glyphs,
         display_tmp_glyphs (fixed2 value) = Some glyphs
         /\ display_tmp_events value
            = glyphs ++ [E_set_alpha "c" 3 false; E_display_draw]).
Proof.
  split.
  - eexists. split; [apply display_tmp_glyphs_walk |].
    rewrite <- list_ascii_length. apply glyph_walk_length.
  - eexists. split; [apply display_tmp_glyphs_walk |].
    unfold display_tmp_events, display_tmp.
    rewrite display_tmp_glyphs_walk. reflexivity.
Qed.

(** X2: the positions [display_tmp] hands to [set_alpha] all lie in
    0..3 exactly when the formatted text has at most four glyphs, a dot
    that follows a glyph not counting as one. *)
Theorem display_tmp_in_range_iff (temp : string) (value : float) :
  (exists glyphs,
      display_tmp_glyphs temp = Some glyphs
      /\ (Forall in_display (alpha_positions glyphs) <-> glyph_count temp <= 4))
  /\ (Forall in_display (alpha_positions (display_tmp_events value))
      <-> glyph_count (fixed2 value) <= 4).
Proof.
  split.
  - eexists. split; [apply display_tmp_glyphs_walk |].
    apply glyph_walk_positions. lia.
  - unfold display_tmp_events, display_tmp.
    rewrite display_tmp_glyphs_walk.
    change (trace_of _)
      with (glyph_walk (list_ascii_of_string (fixed2 value)) 0 Ascii.zero
            ++ [E_set_alpha "c" 3 false; E_display_draw]).
    unfold alpha_positions at 1. rewrite flat_map_app.
    fold (alpha_positions (glyph_walk (list_ascii_of_string (fixed2 value)) 0 Ascii.zero)).
    cbn [flat_map app].
    rewrite Forall_app.
    rewrite (glyph_walk_positions _ 0 Ascii.zero) by lia.
    unfold glyph_count. split; [intros [H _]; exact H |].
    intros H. split; [exact H |]. repeat constructor; lia.
Qed.

Lemma display_tmp_in_range_iff_witness :
  Forall in_display (alpha_positions (display_tmp_events 20.25%float)).
Proof.
  apply (display_tmp_in_range_iff EmptyString 20.25%float).
  vm_compute. discriminate.
Defined.

(** X3: a decimal point takes no display position of its own: every
    [set_alpha] call with the dot flag repeats the character and the
    position of the call just before it, and the first call never has the
    flag. *)
Theorem display_tmp_dot_rewrites_previous (temp : string) :
  exists glyphs,
    display_tmp_glyphs temp = Some glyphs /\ dots_repeat None glyphs = true.
Proof.
  eexists. split; [apply display_tmp_glyphs_walk |].
  apply (glyph_walk_dots (list_ascii_of_string temp) 0 Ascii.zero). lia.
Qed.

(** ** The counter frame *)

Lemma display_int_events_shape (number : Z) :
  exists a b c d,
    display_int_events number
    = [E_display_clear; E_set_number a 0 false; E_set_number b 1 false;
       E_set_number c 2 false; E_set_number d 3 false; E_display_draw].
Proof. do 4 eexists. reflexivity. Qed.

Lemma display_int_clamps (number : Z) :
  display_int_events number
  = display_int_events (if (number <? 0) || (9999 <? number) then 9999 else number).
Proof.
  unfold display_int_events, display_int. cbv zeta.
  destruct ((number <? 0) || (9999 <? number)) eqn:E; [reflexivity |].
  rewrite E. reflexivity.
Qed.

Lemma display_int_frame_in_range (shown : Z) :
  0 <= shown <= 9999 ->
  exists a b c d,
    display_int_events shown
    = [E_display_clear; E_set_number a 0 false; E_set_number b 1 false;
       E_set_number c 2 false; E_set_number d 3 false; E_display_draw]
    /\ 0 <= a <= 9 /\ 0 <= b <= 9 /\ 0 <= c <= 9 /\ 0 <= d <= 9
    /\ 1000 * a + 100 * b + 10 * c + d = shown.
Proof.
  intros Hrange.
  assert (Hall : forallb
            (fun k =>
               match display_int_events (Z.of_nat k) with
               | [_; E_set_number a _ _; E_set_number b _ _;
                  E_set_number c _ _; E_set_number d _ _; _] =>
                   (0 <=? a) && (a <=? 9) && (0 <=? b) && (b <=? 9)
                   && (0 <=? c) && (c <=? 9) && (0 <=? d) && (d <=? 9)
                   && (1000 * a + 100 * b + 10 * c + d =? Z.of_nat k)
               | _ => false
               end)
            (seq 0 (Z.to_nat 10000)) = true) by (vm_compute; reflexivity).
  rewrite forallb_forall in Hall.
  specialize (Hall (Z.to_nat shown) ltac:(apply in_seq; lia)).
  rewrite Z2Nat.id in Hall by lia.
  destruct (display_int_events_shape shown) as (a & b & c & d & Hshape).
  rewrite Hshape in Hall |- *.
  exists a, b, c, d. split; [reflexivity |].
  repeat (apply andb_prop in Hall as [Hall ?]).
  repeat match goal with
         | H : (_ <=? _) = true |- _ => apply Z.leb_le in H
         | H : (_ =? _) = true |- _ => apply Z.eqb_eq in H
         end.
  lia.
Qed.

Lemma clamp_in_range (number : Z) :
  0 <= (if (number <? 0) || (9999 <? number) then 9999 else number) <= 9999.
Proof.
  destruct (Z.ltb_spec number 0); cbn [orb]; [lia |].
  destruct (Z.ltb_spec 9999 number); lia.
Qed.

(** X4: [display_int] always writes one complete frame: [clear], four
    [set_number] calls at positions 0, 1, 2, 3 without dot, each with a
    decimal digit, and [draw]; the digits read as the number itself when
    it lies in 0..9999 and as 9999 for any other argument. *)
Theorem display_int_shows_clamped (number : Z) :
  let shown := if (number <? 0) || (9999 <? number) then 9999 else number in
  exists a b c d,
    display_int_events number
    = [E_display_clear; E_set_number a 0 false; E_set_number b 1 false;
       E_set_number c 2 false; E_set_number d 3 false; E_display_draw]
    /\ 0 <= a <= 9 /\ 0 <= b <= 9 /\ 0 <= c <= 9 /\ 0 <= d <= 9
    /\ 1000 * a + 100 * b + 10 * c + d = shown.
Proof.
  cbv zeta.
  destruct (Z.ltb_spec number 0) as [Hneg | Hnonneg]; cbn [orb].
  - rewrite display_int_clamps.
    replace ((number <? 0) || (9999 <? number)) with true
      by (symmetry; apply orb_true_iff; left; apply Z.ltb_lt; exact Hneg).
    apply display_int_frame_in_range. lia.
  - destruct (Z.ltb_spec 9999 number) as [Hbig | Hsmall].
    + rewrite display_int_clamps.
      replace ((number <? 0) || (9999 <? number)) with true
        by (symmetry; apply orb_true_iff; right; apply Z.ltb_lt; exact Hbig).
      apply display_int_frame_in_range. lia.
    + apply display_int_frame_in_range. lia.
Qed.

(** ** Runs of the render task *)

Lemma led_task_pico_run_cons (DEBUG : bool) (l : PicoLocals) (g : Globals)
    (tick : Z) (ticks : list Z) :
  led_task_pico_run DEBUG l g (tick :: ticks) =
  let r1 := led_task_pico_iter DEBUG l tick g in
  let r2 := led_task_pico_run DEBUG (result_of r1) (globals_of r1) ticks in
  (result_of r2, globals_of r2, trace_of r1 ++ trace_of r2).
Proof.
  cbn [led_task_pico_run].
  destruct (led_task_pico_iter DEBUG l tick g) as [[l1 g1] t1].
  unfold result_of, globals_of, trace_of. cbn [fst snd].
  destruct (led_task_pico_run DEBUG l1 g1 ticks) as [[l2 g2] t2].
  reflexivity.
Qed.

Lemma flat_map_display_free {B : Type} (f : event -> list B) (es : list event) :
  (forall e, is_display e = true -> f e = []) ->
  forallb is_display es = true ->
  flat_map f es = [].
Proof.
  intros Hf. induction es as [| e es IH]; cbn; [reflexivity |].
  intros H. apply andb_prop in H as [He Hes].
  rewrite (Hf e He), (IH Hes). reflexivity.
Qed.

Lemma sent_tokens_phase (DEBUG : bool) (l : PicoLocals) (g : Globals) :
  sent_tokens (phase_events DEBUG l g) = [].
Proof.
  assert (Hfree : forall e, is_display e = true ->
                            match e with
                            | E_queue_send Q_flip item _ false => [item]
                            | _ => []
                            end = [])
    by (intros e; destruct e; cbn; congruence).
  pose proof (flat_map_display_free _ _ Hfree
                (display_int_events_display (count l + 1))) as Hint.
  pose proof (flat_map_display_free _ _ Hfree
                (display_tmp_events_display (read_temp g))) as Htmp.
  unfold sent_tokens, phase_events. destruct (state l).
  - rewrite flat_map_app. cbn [flat_map app]. rewrite Hint.
    destruct DEBUG; reflexivity.
  - cbn [flat_map app]. exact Htmp.
Qed.

Lemma sent_tokens_iter (DEBUG : bool) (l : PicoLocals) (tick : Z) (g : Globals) :
  sent_tokens (trace_of (led_task_pico_iter DEBUG l tick g))
  = if due l tick then [flash_token (state l)] else [].
Proof.
  rewrite led_task_pico_iter_run. unfold due.
  destruct (500 <=? wrap32 (wrap32 tick - then_ l)); [| reflexivity].
  unfold trace_of. cbn [snd]. unfold sent_tokens at 1.
  cbn [flat_map app]. rewrite flat_map_app.
  fold (sent_tokens (phase_events DEBUG l g)). rewrite sent_tokens_phase.
  reflexivity.
Qed.

Lemma state_after_iter (DEBUG : bool) (l : PicoLocals) (tick : Z) (g : Globals) :
  state (result_of (led_task_pico_iter DEBUG l tick g))
  = if due l tick then negb (state l) else state l.
Proof.
  rewrite led_task_pico_iter_run. unfold due.
  destruct (500 <=? wrap32 (wrap32 tick - then_ l)); reflexivity.
Qed.

(** X5: over any run of the render task, whatever tick values it reads
    and whatever the queue holds, the tokens it sends strictly alternate,
    beginning with the one for its current phase: from start-up
    [GPIO_LED_OFF], [GPIO_LED_ON], [GPIO_LED_OFF], ..., at most one per
    iteration. *)
Theorem render_tokens_alternate (DEBUG : bool) (ticks : list Z) :
  forall (l : PicoLocals) (g : Globals),
  exists n,
    (n <= List.length ticks)%nat
    /\ sent_tokens (trace_of (led_task_pico_run DEBUG l g ticks))
       = alternate (state l) n.
Proof.
  induction ticks as [| tick ticks IH]; intros l g.
  - exists 0%nat. split; [lia | reflexivity].
  - rewrite led_task_pico_run_cons. cbv zeta.
    destruct (IH (result_of (led_task_pico_iter DEBUG l tick g))
                 (globals_of (led_task_pico_iter DEBUG l tick g)))
      as (n & Hn & Htail).
    unfold trace_of at 1. cbn [snd].
    unfold sent_tokens at 1. rewrite flat_map_app.
    fold (sent_tokens (trace_of (led_task_pico_iter DEBUG l tick g))).
    match goal with
    | |- context [flat_map ?f (trace_of ?r)] =>
        change (flat_map f (trace_of r)) with (sent_tokens (trace_of r))
    end.
    rewrite Htail, sent_tokens_iter, state_after_iter.
    destruct (due l tick).
    + exists (S n). split; [cbn; lia | reflexivity].
    + exists n. split; [cbn; lia | reflexivity].
Qed.

Lemma shown_counters_no_clear (es rest : list event) :
  existsb is_display_clear es = false ->
  shown_counters (es ++ rest) = shown_counters rest.
Proof.
  induction es as [| e es IH]; intros H; [reflexivity |].
  cbn [existsb] in H. apply orb_false_elim in H as [He Hes].
  destruct e; try discriminate He; cbn [app shown_counters]; apply IH, Hes.
Qed.

Lemma display_tmp_events_no_clear (value : float) :
  existsb is_display_clear (display_tmp_events value) = false.
Proof.
  unfold display_tmp_events, display_tmp. rewrite display_tmp_glyphs_walk.
  change (trace_of _)
    with (glyph_walk (list_ascii_of_string (fixed2 value)) 0 Ascii.zero
          ++ [E_set_alpha "c" 3 false; E_display_draw]).
  rewrite existsb_app. cbn [existsb is_display_clear orb].
  rewrite orb_false_r.
  generalize 0 at 1, Ascii.zero.
  induction (list_ascii_of_string (fixed2 value)) as [| c cs IH];
    intros digit previous_char; cbn [glyph_walk].
  - destruct (digit =? 3); reflexivity.
  - destruct (Ascii.eqb c "." && (0 <? digit)); cbn [existsb is_display_clear orb];
      apply IH.
Qed.

Lemma shown_counters_display_int (number : Z) (rest : list event) :
  shown_counters (display_int_events number ++ E_queue_send Q_flip 0 0 false :: rest)
  = (if (number <? 0) || (9999 <? number) then 9999 else number)
    :: shown_counters rest.
Proof.
  rewrite display_int_clamps.
  destruct (display_int_frame_in_range _ (clamp_in_range number))
    as (a & b & c & d & -> & _ & _ & _ & _ & <-).
  reflexivity.
Qed.

Lemma shown_counters_iter (DEBUG : bool) (l : PicoLocals) (tick : Z) (g : Globals)
    (rest : list event) :
  shown_counters (trace_of (led_task_pico_iter DEBUG l tick g) ++ rest)
  = (if due l tick && state l
     then [if (count l + 1 <? 0) || (9999 <? count l + 1) then 9999 else count l + 1]
     else [])
    ++ shown_counters rest.
Proof.
  rewrite led_task_pico_iter_run. unfold due.
  destruct (500 <=? wrap32 (wrap32 tick - then_ l)); [| reflexivity].
  unfold trace_of, phase_events, flash_token. cbn [snd andb].
  destruct (state l).
  - change GPIO_LED_OFF with 0.
    destruct DEBUG; cbn [app shown_counters]; rewrite <- app_assoc;
      cbn [app]; apply shown_counters_display_int.
  - cbn [app shown_counters]. rewrite <- app_assoc.
    rewrite (shown_counters_no_clear _ _ (display_tmp_events_no_clear _)).
    reflexivity.
Qed.

Lemma count_after_iter (DEBUG : bool) (l : PicoLocals) (tick : Z) (g : Globals) :
  count (result_of (led_task_pico_iter DEBUG l tick g))
  = if due l tick then next_count l else count l.
Proof.
  rewrite led_task_pico_iter_run. unfold due.
  destruct (500 <=? wrap32 (wrap32 tick - then_ l)); reflexivity.
Qed.

Lemma render_counters_from (DEBUG : bool) (ticks : list Z) :
  forall (l : PicoLocals) (g : Globals),
    -1 <= count l <= 9998 ->
    exists n,
      (n <= List.length ticks)%nat
      /\ shown_counters (trace_of (led_task_pico_run DEBUG l g ticks))
         = counter_seq (count l) n
      /\ -1 <= count (result_of (led_task_pico_run DEBUG l g ticks)) <= 9998.
Proof.
  induction ticks as [| tick ticks IH]; intros l g Hcount.
  - exists 0%nat. split; [lia | split; [reflexivity | exact Hcount]].
  - rewrite led_task_pico_run_cons. cbv zeta.
    unfold trace_of at 1. unfold result_of at 1. cbn [fst snd].
    rewrite shown_counters_iter.
    pose proof (count_after_iter DEBUG l tick g) as Hnext.
    unfold next_count in Hnext.
    destruct (due l tick); cbn [andb].
    + destruct (state l).
      * destruct (IH (result_of (led_task_pico_iter DEBUG l tick g))
                     (globals_of (led_task_pico_iter DEBUG l tick g)))
          as (n & Hn & Htail & Hbound).
        { rewrite Hnext. destruct (Z.ltb_spec 9998 (count l + 1)); lia. }
        exists (S n). split; [cbn; lia | split; [| exact Hbound]].
        rewrite Htail, Hnext. cbn [counter_seq app].
        destruct (Z.ltb_spec (count l + 1) 0); [lia |].
        destruct (Z.ltb_spec 9999 (count l + 1)); [lia |].
        reflexivity.
      * destruct (IH (result_of (led_task_pico_iter DEBUG l tick g))
                     (globals_of (led_task_pico_iter DEBUG l tick g)))
          as (n & Hn & Htail & Hbound).
        { rewrite Hnext. destruct (Z.ltb_spec 9998 (count l)); lia. }
        exists n. split; [cbn; lia | split; [| exact Hbound]].
        rewrite Htail, Hnext. cbn [app].
        destruct (Z.ltb_spec 9998 (count l)); [lia | reflexivity].
    + destruct (IH (result_of (led_task_pico_iter DEBUG l tick g))
                   (globals_of (led_task_pico_iter DEBUG l tick g)))
        as (n & Hn & Htail & Hbound).
      { rewrite Hnext. exact Hcount. }
      exists n. split; [cbn; lia | split; [| exact Hbound]].
      rewrite Htail, Hnext. reflexivity.
Qed.

Lemma counter_seq_nth (n : nat) :
  forall (c : Z) (k : nat),
    -1 <= c <= 9998 ->
    (k < n)%nat ->
    nth k (counter_seq c n) 0
    = if c + 1 + Z.of_nat k <=? 9999 then c + 1 + Z.of_nat k
      else 1 + (c + 1 + Z.of_nat k - 10000) mod 9999.
Proof.
  induction n as [| n IH]; intros c k Hc Hk; [lia |].
  cbn [counter_seq]. destruct k as [| k].
  - cbn [nth]. destruct (Z.leb_spec (c + 1 + Z.of_nat 0) 9999); lia.
  - cbn [nth]. rewrite IH by (try lia; destruct (Z.ltb_spec 9998 (c + 1)); lia).
    destruct (Z.ltb_spec 9998 (c + 1)) as [Hwrap | Hnowrap].
    + assert (c = 9998) as -> by lia.
      destruct (Z.leb_spec (0 + 1 + Z.of_nat k) 9999);
        destruct (Z.leb_spec (9998 + 1 + Z.of_nat (S k)) 9999); try lia.
      * rewrite Z.mod_small by lia. lia.
      * replace (9998 + 1 + Z.of_nat (S k) - 10000)
          with (0 + 1 + Z.of_nat k - 10000 + 1 * 9999) by lia.
        rewrite Z.mod_add by lia. reflexivity.
    + replace (c + 1 + 1 + Z.of_nat k) with (c + 1 + Z.of_nat (S k)) by lia.
      reflexivity.
Qed.

(** X6: over any run of the render task from start-up, whatever tick
    values it reads, the counter values it shows are, in order, 0, 1,
    ..., 9999 and from then on 1, 2, ..., 9999 repeated: the [k]-th value
    (from 0) is [k] up to 9999 and [1 + (k - 10000) mod 9999] after;
    at most one value is shown per iteration. *)
Theorem render_counter_sequence (DEBUG : bool) (g : Globals) (ticks : list Z) (k : nat) :
  let shown :=
    shown_counters (trace_of (led_task_pico_run DEBUG pico_locals_init g ticks)) in
  (k < List.length shown)%nat ->
  (List.length shown <= List.length ticks)%nat
  /\ nth k shown 0
     = if Z.of_nat k <=? 9999 then Z.of_nat k
       else 1 + (Z.of_nat k - 10000) mod 9999.
Proof.
  cbv zeta.
  destruct (render_counters_from DEBUG ticks pico_locals_init g)
    as (n & Hn & -> & _); [cbn; lia |].
  assert (Hlen : forall c m, List.length (counter_seq c m) = m)
    by (intros c m; revert c; induction m; intros c; cbn; congruence).
  rewrite Hlen. intros Hk. split; [exact Hn |].
  rewrite counter_seq_nth by (cbn; lia).
  cbn [count pico_locals_init].
  replace (-1 + 1 + Z.of_nat k) with (Z.of_nat k) by lia. reflexivity.
Qed.

Lemma render_counter_sequence_witness :
  nth 1 (shown_counters
           (trace_of (led_task_pico_run false pico_locals_init started
                        [500; 1000; 1500])))
      0 = 1.
Proof.
  apply (render_counter_sequence false started [500; 1000; 1500] 1).
  vm_compute. lia.
Defined.

(** ** The period test *)

Lemma elapsed_ticks (t d : Z) :
  0 <= d < 2 ^ 32 -> wrap32 (wrap32 (t + d) - t) = d.
Proof.
  intros Hd. unfold wrap32. rewrite Zminus_mod_idemp_l.
  replace (t + d - t) with d by lia. apply Z.mod_small. exact Hd.
Qed.

(** X7: the period test of the render task measures the ticks elapsed
    since the last phase correctly across an overflow of the 32-bit tick
    counter: read [d] ticks after [then], the iteration runs a phase
    exactly when [d >= 500]; it then records the tick read and changes
    phase, and otherwise changes nothing and only reads the tick count. *)
Theorem period_test_wrap_safe
    (DEBUG : bool) (l : PicoLocals) (g : Globals) (d : Z) :
  0 <= d < 2 ^ 32 ->
  let r := led_task_pico_iter DEBUG l (then_ l + d) g in
  (due l (then_ l + d) = true <-> 500 <= d)
  /\ (500 <= d ->
      then_ (result_of r) = wrap32 (then_ l + d)
      /\ state (result_of r) = negb (state l))
  /\ (d < 500 -> r = (l, g, [E_get_tick_count])).
Proof.
  intros Hd. cbv zeta. rewrite led_task_pico_iter_run. unfold due.
  rewrite (elapsed_ticks (then_ l) d Hd).
  split; [apply Z.leb_le |].
  destruct (Z.leb_spec 500 d); split; intros; try lia; try reflexivity.
  split; reflexivity.
Qed.

Lemma period_test_wrap_safe_witness :
  let l := mkPicoLocals 1 7 true (2 ^ 32 - 100) in
  then_ (result_of (led_task_pico_iter false l (2 ^ 32 - 100 + 600) started)) = 500.
Proof.
  cbv zeta.
  destruct (period_test_wrap_safe false (mkPicoLocals 1 7 true (2 ^ 32 - 100))
              started 600 ltac:(lia)) as (_ & Hdue & _).
  destruct (Hdue ltac:(lia)) as [Hthen _].
  exact Hthen.
Defined.

(** ** The mirror task behind its producers *)

(** X8: when the mirror queue is empty and has room, a phase of the
    render task followed by an iteration of the mirror task drives the
    red LED to the opposite of what the phase did to the board LED, and
    leaves the queue empty again. *)
Theorem mirror_led_opposes_board_led
    (DEBUG : bool) (l : PicoLocals) (tick buffer : Z) (g : Globals) :
  due l tick = true ->
  q_items (flip_queue g) = [] ->
  0 < q_capacity (flip_queue g) ->
  let r1 := led_task_pico_iter DEBUG l tick g in
  let r2 := led_task_gpio_iter buffer (globals_of r1) in
  In (E_gpio_put PICO_DEFAULT_LED_PIN (state l)) (trace_of r1)
  /\ result_of r2 = Some (flash_token (state l))
  /\ In (E_gpio_put RED_LED_PIN (negb (state l))) (trace_of r2)
  /\ q_items (flip_queue (globals_of r2)) = [].
Proof.
  intros Hdue Hempty Hroom. cbv zeta. rewrite led_task_pico_iter_run.
  unfold due in Hdue. rewrite Hdue.
  unfold globals_of, trace_of, result_of. cbn [fst snd].
  rewrite led_task_gpio_iter_run.
  unfold queue_send_back, queue_full. rewrite Hempty. cbn [List.length Z.of_nat].
  destruct (Z.leb_spec (q_capacity (flip_queue g)) 0) as [Hfull |_]; [lia |].
  cbn [fst set_queue flip_queue q_items app].
  repeat split.
  - right. apply in_or_app. left. unfold phase_events.
    destruct (state l).
    + apply in_or_app. right. left. reflexivity.
    + left. reflexivity.
  - destruct (state l); reflexivity.
  - right. apply in_or_app. right. left.
    destruct (state l); reflexivity.
Qed.

Lemma mirror_led_opposes_board_led_witness :
  In (E_gpio_put RED_LED_PIN false)
     (trace_of (led_task_gpio_iter 0
                  (globals_of (led_task_pico_iter false pico_locals_init 500 started)))).
Proof.
  destruct (mirror_led_opposes_board_led false pico_locals_init 500 0 started)
    as (_ & _ & Hred & _).
  - reflexivity.
  - reflexivity.
  - reflexivity.
  - exact Hred.
Defined.

(** X9: the byte the ISR puts on [flip_queue] is taken by the mirror
    task for a [GPIO_LED_ON] token: with the queue empty before the
    interrupt, the next iteration of the mirror task receives 1, logs the
    flash and switches the red LED on, while [irq_hit] stays as it was
    and the interrupt stays disabled. *)
Theorem interrupt_byte_lights_red_led
    (gpio : pin) (events buffer : Z) (g : Globals) :
  q_items (flip_queue g) = [] ->
  0 < q_capacity (flip_queue g) ->
  let r1 := gpio_cb gpio events g in
  let r2 := led_task_gpio_iter buffer (globals_of r1) in
  result_of r2 = Some 1
  /\ trace_of r2
     = [E_queue_receive Q_flip portMAX_DELAY;
        E_printf ("[DEBUG] GPIO LED FLASH" ++ String "010" EmptyString);
        E_gpio_put RED_LED_PIN true; E_load_irq_hit;
        E_gpio_put ALERT_LED_PIN (irq_hit g)]
  /\ irq_hit (globals_of r2) = irq_hit g
  /\ irq_enabled (globals_of r2) = false.
Proof.
  intros Hempty Hroom. cbv zeta. rewrite gpio_cb_run.
  unfold globals_of, trace_of, result_of. cbn [fst snd].
  rewrite led_task_gpio_iter_run.
  unfold queue_send_back, queue_full. rewrite Hempty. cbn [List.length Z.of_nat].
  destruct (Z.leb_spec (q_capacity (flip_queue g)) 0) as [Hfull |_]; [lia |].
  cbn. repeat split.
Qed.

Lemma interrupt_byte_lights_red_led_witness :
  result_of (led_task_gpio_iter 0
               (globals_of (gpio_cb ALERT_SENSE_PIN 1 started))) = Some 1.
Proof.
  destruct (interrupt_byte_lights_red_led ALERT_SENSE_PIN 1 0 started)
    as (Hres & _).
  - reflexivity.
  - reflexivity.
  - exact Hres.
Defined.

(** ** What never happens *)

Lemma shows_alert_display (e : event) : is_display e = true -> shows_alert e = false.
Proof. destruct e; cbn; congruence. Qed.

Lemma phase_events_no_alert (DEBUG : bool) (l : PicoLocals) (g : Globals) :
  existsb shows_alert (phase_events DEBUG l g) = false.
Proof.
  pose proof (existsb_display_free shows_alert _ shows_alert_display
                (display_int_events_display (count l + 1))) as Hint.
  pose proof (existsb_display_free shows_alert _ shows_alert_display
                (display_tmp_events_display (read_temp g))) as Htmp.
  unfold phase_events. destruct (state l).
  - rewrite existsb_app. cbn [existsb]. rewrite Hint.
    destruct DEBUG; reflexivity.
  - cbn [existsb]. rewrite Htmp. reflexivity.
Qed.

Lemma main_never_alerted (DEBUG sp : bool) (a b c d : Z) :
  never_alerted (globals_of (main DEBUG sp a b c d boot)).
Proof.
  unfold main, setup, setup_i2c, setup_led, setup_gpio. unfold_M.
  destruct DEBUG, sp; cbn;
    destruct ((a =? pdPASS) || (b =? pdPASS) || (c =? pdPASS));
    split; [| split | | split | | split | | split | | split | | split | | split | | split];
    reflexivity.
Qed.

Lemma run_op_never_alerted (DEBUG : bool) (limit : float) (delay rate : Z)
    (o : op) (s : System) :
  never_alerted (globals s) ->
  never_alerted (globals (fst (run_op DEBUG limit delay rate o s)))
  /\ existsb shows_alert (snd (run_op DEBUG limit delay rate o s)) = false.
Proof.
  intros (Hq & Hhit & Htimer). unfold never_alerted.
  destruct o as [gpio events | tick | | sample | |]; cbn [run_op].
  - rewrite gpio_cb_run. cbn. auto.
  - rewrite led_task_pico_iter_run.
    destruct (500 <=? wrap32 (wrap32 tick - then_ (pico s))); cbn [fst snd globals].
    + split; [cbn; auto |].
      cbn [existsb shows_alert orb]. rewrite existsb_app, phase_events_no_alert.
      reflexivity.
    + cbn. auto.
  - rewrite led_task_gpio_iter_run.
    destruct (q_items (flip_queue (globals s))) as [| v rest]; cbn [fst snd globals].
    + cbn. auto.
    + split; [cbn; auto |]. rewrite Hhit.
      destruct (negb (v =? 0)); reflexivity.
  - rewrite sensor_read_task_iter_run. cbn. auto.
  - rewrite sensor_clear_task_iter_run. rewrite Hq. cbn. auto.
  - rewrite timer_fired_run. cbn [fst snd globals].
    destruct (PrimFloat.ltb (read_temp (globals s)) limit), DEBUG; cbn; auto.
Qed.

(** X10: in every state reachable from the one [main] leaves, by any
    interleaving of the ISR, the task loops and the timer callback,
    [irq_queue] is empty, [irq_hit] is false and no timer has been
    created; and no operation run from such a state drives the alert LED
    high or creates a timer. *)
Theorem alert_never_shown
    (DEBUG : bool) (limit : float) (delay rate : Z) (s : System) :
  reachable DEBUG limit delay rate s ->
  never_alerted (globals s)
  /\ forall o, existsb shows_alert (snd (run_op DEBUG limit delay rate o s)) = false.
Proof.
  intros Hreach.
  assert (Hnever : never_alerted (globals s)).
  { induction Hreach as [sp a b c d | s o Hreach IH].
    - apply main_never_alerted.
    - apply run_op_never_alerted, IH. }
  split; [exact Hnever |].
  intros o. apply run_op_never_alerted, Hnever.
Qed.

Lemma alert_never_shown_witness :
  existsb shows_alert
    (snd (run_op false 24%float 100 1000 Op_led_task_gpio
            (fst (run_op false 24%float 100 1000 (Op_gpio_cb ALERT_SENSE_PIN 1)
                    (system_start false true 1 1 1 1)))))
  = false.
Proof.
  apply (alert_never_shown false 24%float 100 1000).
  apply reach_step, reach_start.
Defined.

(** X11: each shared value has few writers.  No operation changes
    [sensor_good]; [read_temp] is written only by the sensor-poll task,
    with the sample read; [irq_hit] only by the alert task and the timer
    callback; [alert_timer] and [irq_queue] only by the alert task;
    [flip_queue] only by the ISR, the render task and the mirror task. *)
Theorem run_op_writers (DEBUG : bool) (limit : float) (delay rate : Z)
    (o : op) (s : System) :
  let g := globals s in
  let g' := globals (fst (run_op DEBUG limit delay rate o s)) in
  sensor_good g' = sensor_good g
  /\ read_temp g' = match o with
                    | Op_sensor_read_task sample => sample
                    | _ => read_temp g
                    end
  /\ (irq_hit g' <> irq_hit g -> o = Op_sensor_clear_task \/ o = Op_timer_fired)
  /\ (alert_timer g' <> alert_timer g -> o = Op_sensor_clear_task)
  /\ (irq_queue g' <> irq_queue g -> o = Op_sensor_clear_task)
  /\ (flip_queue g' <> flip_queue g ->
      (exists gpio events, o = Op_gpio_cb gpio events)
      \/ (exists tick, o = Op_led_task_pico tick)
      \/ o = Op_led_task_gpio).
Proof.
  cbv zeta.
  destruct o as [gpio events | tick | | sample | |]; cbn [run_op];
    [ rewrite gpio_cb_run
    | rewrite led_task_pico_iter_run;
      destruct (500 <=? wrap32 (wrap32 tick - then_ (pico s)))
    | rewrite led_task_gpio_iter_run;
      destruct (q_items (flip_queue (globals s)))
    | rewrite sensor_read_task_iter_run
    | rewrite sensor_clear_task_iter_run;
      destruct (q_items (irq_queue (globals s))) as [| v rest]; cbv zeta;
      [| destruct (v =? 1)]
    | rewrite timer_fired_run;
      destruct (PrimFloat.ltb (read_temp (globals s)) limit) ];
    cbn [fst snd globals sensor_good read_temp irq_hit alert_timer irq_queue
         flip_queue set_irq_enabled set_irq_hit set_queue set_read_temp
         set_alert_timer];
    (split; [reflexivity |]); (split; [reflexivity |]);
    repeat match goal with |- _ /\ _ => split end;
    intros Hchanged;
    first [ solve [exfalso; apply Hchanged; reflexivity]
          | solve [left; eauto]
          | solve [right; left; eauto]
          | solve [right; right; reflexivity]
          | solve [right; reflexivity]
          | reflexivity ].
Qed.

Lemma run_op_writers_witness :
  Op_sensor_clear_task = Op_sensor_clear_task \/ Op_sensor_clear_task = Op_timer_fired.
Proof.
  destruct (run_op_writers false 24%float 100 1000 Op_sensor_clear_task
              (mkSystem (set_queue Q_irq (mkQueue 1 [1]) started)
                        pico_locals_init 0 0))
    as (_ & _ & Hhit & _).
  apply Hhit. vm_compute. discriminate.
Defined.

(** ** Start-up, in full *)


(** X13: [main] starts the scheduler exactly when one of the first three
    [xTaskCreate] results is [pdPASS], and then never touches the board
    LED after set-up; otherwise it switches the LED on five times and off
    six times (once in set-up) and never starts the scheduler.  The
    result for the alert task changes nothing. *)
Theorem main_outcome_and_blinks (DEBUG sensor_present : bool) (a b c d : Z) :
  let r := main DEBUG sensor_present a b c d boot in
  let any := (a =? pdPASS) || (b =? pdPASS) || (c =? pdPASS) in
  result_of r = (if any then SchedulerStarted else BlinkedThenHalted 5)
  /\ existsb is_start_scheduler (trace_of r) = any
  /\ List.length (filter is_led_on (trace_of r)) = (if any then 0 else 5)%nat
  /\ List.length (filter is_led_off (trace_of r)) = (if any then 1 else 6)%nat
  /\ forall d', main DEBUG sensor_present a b c d' boot = r.
Proof.
  cbv zeta. unfold main, setup, setup_i2c, setup_led, setup_gpio. unfold_M.
  destruct DEBUG, sensor_present; cbn;
    destruct ((a =? pdPASS) || (b =? pdPASS) || (c =? pdPASS));
    (split; [reflexivity |]); (split; [reflexivity |]);
    (split; [reflexivity |]); (split; [reflexivity |]); intros d'; reflexivity.
Qed.

(** ** The debug logger *)

Lemma string_length_append (s1 s2 : string) :
  String.length (s1 ++ s2) = (String.length s1 + String.length s2)%nat.
Proof. induction s1 as [| c s1 IH]; cbn; [reflexivity | rewrite IH; reflexivity]. Qed.

(** X14: [log_debug] prints ["[DEBUG] "], the message and a newline, and
    the buffer it formats them into is one byte short: [sprintf] stores
    [strlen(msg) + 10] bytes, terminator included, into the
    [9 + strlen(msg)] bytes obtained from [malloc]. *)
Theorem log_debug_buffer_one_short (msg : string) (g : Globals) :
  9 + Z.of_nat (String.length msg) < 2 ^ 32 ->
  log_debug msg g = (tt, g, [E_printf (log_debug_text msg)])
  /\ sprintf_stores (log_debug_text msg) = Z.of_nat (String.length msg) + 10
  /\ sprintf_stores (log_debug_text msg) = log_debug_allocated msg + 1.
Proof.
  intros Hsmall.
  assert (Hstores : sprintf_stores (log_debug_text msg)
                    = Z.of_nat (String.length msg) + 10).
  { unfold sprintf_stores, log_debug_text.
    rewrite !string_length_append. cbn [String.length]. lia. }
  split; [reflexivity | split; [exact Hstores |]].
  rewrite Hstores. unfold log_debug_allocated, wrap32.
  rewrite Z.mod_small by lia. lia.
Qed.

Lemma log_debug_buffer_one_short_witness :
  sprintf_stores (log_debug_text "Timer fired") = log_debug_allocated "Timer fired" + 1.
Proof.
  apply (log_debug_buffer_one_short "Timer fired" boot). vm_compute. reflexivity.
Defined.

(** ** The mirror task over a queue of tokens *)

Lemma mirror_task_drains (items : list Z) :
  forall (buffer : Z) (g : Globals),
    q_items (flip_queue g) = items ->
    let r := led_task_gpio_run (List.length items) buffer g in
    pin_levels RED_LED_PIN (trace_of r) = map (fun v => v =? GPIO_LED_ON) items
    /\ pin_levels ALERT_LED_PIN (trace_of r) = map (fun _ => irq_hit g) items
    /\ q_items (flip_queue (globals_of r)) = []
    /\ irq_hit (globals_of r) = irq_hit g.
Proof.
  induction items as [| v items IH]; intros buffer g Hitems; cbv zeta.
  - cbn. auto.
  - cbn [List.length led_task_gpio_run].
    rewrite led_task_gpio_iter_run, Hitems.
    specialize (IH v (set_queue Q_flip (mkQueue (q_capacity (flip_queue g)) items) g)
                  eq_refl).
    cbv zeta in IH.
    destruct (led_task_gpio_run (List.length items) v
                (set_queue Q_flip (mkQueue (q_capacity (flip_queue g)) items) g))
      as [[b2 g2] t2].
    unfold trace_of, globals_of in *. cbn [fst snd] in *.
    destruct IH as (Hred & Halert & Hq & Hhit).
    assert (Happ : forall p es1 es2,
               pin_levels p (es1 ++ es2) = pin_levels p es1 ++ pin_levels p es2)
      by (intros; apply flat_map_app).
    cbn [set_queue irq_hit] in Halert, Hhit.
    rewrite !Happ, Hred, Halert.
    split; [| split; [| split; [exact Hq | exact Hhit]]];
      destruct (negb (v =? 0)); reflexivity.
Qed.

(** X15: run until it has taken every token waiting on [flip_queue], the
    mirror task drives the red LED once per token, in FIFO order, high
    for [GPIO_LED_ON] and low for any other byte; it writes the alert LED
    once per token as well, with the value of [irq_hit]; it leaves the
    queue empty, and its next iteration blocks without any output. *)
Theorem mirror_task_fifo (buffer : Z) (g : Globals) :
  let items := q_items (flip_queue g) in
  let r := led_task_gpio_run (List.length items) buffer g in
  pin_levels RED_LED_PIN (trace_of r) = map (fun v => v =? GPIO_LED_ON) items
  /\ pin_levels ALERT_LED_PIN (trace_of r) = map (fun _ => irq_hit g) items
  /\ q_items (flip_queue (globals_of r)) = []
  /\ forall buffer',
       led_task_gpio_iter buffer' (globals_of r)
       = (None, globals_of r, [E_queue_receive Q_flip portMAX_DELAY]).
Proof.
  cbv zeta.
  destruct (mirror_task_drains (q_items (flip_queue g)) buffer g eq_refl)
    as (Hred & Halert & Hq & _).
  split; [exact Hred | split; [exact Halert | split; [exact Hq |]]].
  intros buffer'. rewrite led_task_gpio_iter_run, Hq. reflexivity.
Qed.

(** ** The timer callback after a reading *)

(** X16: the callback decides on the reading stored last: run after the
    sensor-poll task has stored [sample], it leaves the interrupt enabled
    exactly when [sample] is below the limit or the interrupt was enabled
    already, and [irq_hit] false; a second run straight after changes
    nothing further. *)
Theorem timer_fired_uses_latest_sample
    (DEBUG : bool) (limit : float) (delay : Z) (sample : float) (g : Globals) :
  let g1 := globals_of (sensor_read_task_iter delay sample g) in
  let g2 := globals_of (timer_fired DEBUG limit g1) in
  irq_enabled g2 = PrimFloat.ltb sample limit || irq_enabled g
  /\ irq_hit g2 = false
  /\ globals_of (timer_fired DEBUG limit g2) = g2.
Proof.
  cbv zeta. rewrite sensor_read_task_iter_run.
  unfold globals_of at 2 4 5. cbn [fst snd].
  rewrite !timer_fired_run. unfold globals_of. cbn [fst snd].
  cbn [set_read_temp read_temp].
  destruct (PrimFloat.ltb sample limit) eqn:Hbelow; cbn; rewrite ?Hbelow;
    repeat split.
Qed.
